(** * A browser chat client for two hosted model providers

    Shallow embedding of the conversation loop ([ChatInterface.tsx]),
    the provider adapters and the credential check ([utils/api.ts]),
    the credential form ([ApiKeyManager.tsx]) and the persistence hook
    ([hooks/useLocalStorage.ts]).

    JavaScript strings are sequences of UTF-16 code units; [length],
    [startsWith], [slice], [split] and [trim] all work on code units,
    so a string is modelled as the list of its code units. *)

From Stdlib Require Import Ascii String DecimalString DecimalPos DecimalN QArith_base.
From stdpp Require Import base list numbers gmap.

Set Default Proof Using "Type".
Local Open Scope N_scope.

(** ** JavaScript strings *)

Module Js.

Definition jsstring := list N.

(** A literal of the source text, one code unit per character. *)
Definition lit (s : String.string) : jsstring :=
  List.map N_of_ascii (list_ascii_of_string s).

(** [!s] on a string: only the empty string is falsy. *)
Definition truthy (s : jsstring) : bool :=
  match s with [] => false | _ :: _ => true end.

(** [a === b] on strings. *)
Definition str_eqb (a b : jsstring) : bool := bool_decide (a = b).

(** [a || b] on strings. *)
Definition or_else (a b : jsstring) : jsstring := if truthy a then a else b.

(** ECMAScript WhiteSpace and LineTerminator code points, the set that
    [String.prototype.trim] strips. *)
Definition is_white (c : N) : bool :=
  (c =? 9) || (c =? 10) || (c =? 11) || (c =? 12) || (c =? 13) || (c =? 32)
  || (c =? 160) || (c =? 5760) || ((8192 <=? c) && (c <=? 8202))
  || (c =? 8232) || (c =? 8233) || (c =? 8239) || (c =? 8287)
  || (c =? 12288) || (c =? 65279).

Fixpoint trimStart (s : jsstring) : jsstring :=
  match s with
  | c :: s' => if is_white c then trimStart s' else s
  | [] => []
  end.

Definition trimEnd (s : jsstring) : jsstring := rev (trimStart (rev s)).

Definition trim (s : jsstring) : jsstring := trimEnd (trimStart s).

(** [s.startsWith(p)] *)
Fixpoint startsWith (s p : jsstring) {struct p} : bool :=
  match p, s with
  | [], _ => true
  | _ :: _, [] => false
  | a :: p', b :: s' => (a =? b) && startsWith s' p'
  end.

(** [s.slice(n)] for a non-negative [n]. *)
Definition slice_from (n : nat) (s : jsstring) : jsstring := drop n s.

(** [s.split('\n')]: the pieces between line feeds; never empty. *)
Fixpoint split_nl (s : jsstring) : list jsstring :=
  match s with
  | [] => [[]]
  | c :: s' =>
      if c =? 10 then [] :: split_nl s'
      else match split_nl s' with
           | l :: ls => (c :: l) :: ls
           | [] => [[c]]
           end
  end.

(** [n.toString()] for a non-negative integer: decimal digits. *)
Definition toString (n : N) : jsstring :=
  lit (NilZero.string_of_uint (N.to_uint n)).

(** A blank string: nothing but white space (the empty string included). *)
Definition blank (s : jsstring) : Prop := Forall (fun c => is_white c = true) s.

End Js.
Export Js.

(** ** Data model ([types/index.ts]) *)

Inductive ModelProvider := openai | gemini.

Inductive Role := user | assistant.

Record Message := mkMessage {
  id : jsstring;
  role : Role;
  content : jsstring;
  timestamp : N;          (* a [Date], as milliseconds since the epoch *)
}.

#[global] Instance ModelProvider_eq_dec : EqDecision ModelProvider.
Proof. solve_decision. Defined.
#[global] Instance Role_eq_dec : EqDecision Role.
Proof. solve_decision. Defined.
#[global] Instance Message_eq_dec : EqDecision Message.
Proof. solve_decision. Defined.

(** ** The credential check ([validateApiKey] in [utils/api.ts]) *)

Definition validateApiKey (provider : ModelProvider) (apiKey : jsstring) : bool :=
  if negb (truthy apiKey) || str_eqb (trim apiKey) [] then false
  else match provider with
       | openai => startsWith apiKey (lit "sk-")
       | gemini => bool_decide (10 < length apiKey)%nat
       end.

(** ** JSON, as far as the program uses it

    [JSON.stringify] and [JSON.parse] are built into the host.  Each use
    in the program converts one type of value to text and back; [None]
    stands for a thrown exception. *)

Class JSON (T : Type) := {
  JSON_stringify : T -> option jsstring;
  JSON_parse : jsstring -> option T;
}.

(** A value thrown and caught: [error instanceof Error] holds for
    [ErrorObject], whose [message] is then read. *)
Inductive Thrown :=
| ErrorObject (message : jsstring)
| NotAnError.

(** What an async generator did when run to its end: the fragments it
    yielded, in order, and whether it returned ([None]) or threw.  The
    loop only ever appends a fragment to a string; a fragment is kept
    as the text so appended. *)
Record Generated := mkGenerated {
  yielded : list jsstring;
  ending : option Thrown;
}.

(** [arr[i]] for an integer index: [undefined] outside the array. *)
Definition js_index {A} (arr : list A) (i : Z) : option A :=
  if (i <? 0)%Z then None else arr !! Z.to_nat i.

(** [arr.slice(0, -1)] *)
Definition slice_0_m1 {A} (arr : list A) : list A :=
  take (length arr - 1)%nat arr.

(** [arr.pop()], as the removed element and the array left behind. *)
Definition pop {A} (arr : list A) : option A * list A :=
  (last arr, removelast arr).

(** ** Provider adapters ([utils/api.ts]) *)

Module Api.

(** The [{ role, content }] objects both adapters receive. *)
Record Turn := mkTurn {
  turn_role : Role;
  turn_content : jsstring;
}.

(** *** OpenAI *)

Record OpenAIRequest := mkOpenAIRequest {
  model : jsstring;
  messages : list Turn;
}.

(** The object given to [JSON.stringify] as the request body:
    [{...request, model, messages: request.messages, temperature,
    max_tokens, stream}]; every key of [request] is overridden. *)
Record OpenAIBody := mkOpenAIBody {
  body_model : jsstring;
  body_messages : list Turn;
  body_temperature : Q;
  body_max_tokens : N;
  body_stream : bool;
}.

Record HttpRequest := mkHttpRequest {
  url : jsstring;
  method : jsstring;
  headers : list (jsstring * jsstring);
  body : OpenAIBody;
}.

(** [await response.json()] followed by [error.error?.message]. *)
Inductive ErrorBody :=
| ErrorBodyThrows (e : Thrown)
| ErrorBodyMessage (message : option jsstring).

(** What [fetch] and the response did.  A body is the decoded text of
    each successive [reader.read()], ended by [done] ([None]) or by a
    rejected read. *)
Inductive FetchOutcome :=
| FetchRejects (e : Thrown)
| ResponseNotOk (err : ErrorBody)
| ResponseNoBody
| ResponseBody (reads : list jsstring) (fin : option Thrown).

(** A JSON value found as [content], as far as the program looks at
    one: [if (content)] asks whether it is truthy, and the loop's
    [fullResponse += chunk] appends its text.  [JsonOther] is any value
    that is not a string: [null], a boolean, a number, an array or an
    object, with what these two operations make of it. *)
Inductive JsonValue :=
| JsonString (s : jsstring)
| JsonOther (is_truthy : bool) (text : jsstring).

(** [if (content)] *)
Definition json_truthy (content : JsonValue) : bool :=
  match content with
  | JsonString s => truthy s
  | JsonOther is_truthy _ => is_truthy
  end.

(** The text [fullResponse += content] appends. *)
Definition json_text (content : JsonValue) : jsstring :=
  match content with
  | JsonString s => s
  | JsonOther _ text => text
  end.

(** One streamed completion chunk, as far as the adapter reads it.
    [choices = None]: the parsed value has no such array, so that
    [parsed.choices[0]] throws inside the [try]. *)
Record Delta := mkDelta { delta_content : option JsonValue }.
Record Choice := mkChoice { delta : option Delta }.
Record Completion := mkCompletion { choices : option (list Choice) }.

(** [parsed.choices[0]?.delta?.content]; the outer [None] is the
    exception. *)
Definition choices_0_delta_content (parsed : Completion) : option (option JsonValue) :=
  match choices parsed with
  | None => None
  | Some cs =>
      Some (match js_index cs 0 with
            | None => None
            | Some c => match delta c with
                        | None => None
                        | Some d => delta_content d
                        end
            end)
  end.

(** The body of the [try] around [JSON.parse]: the fragments it yields,
    each as the text the loop appends.  An exception anywhere inside is
    caught and yields nothing. *)
Definition tryParse `{JSON Completion} (data : jsstring) : list jsstring :=
  match JSON_parse data with
  | None => []
  | Some parsed =>
      match choices_0_delta_content parsed with
      | None => []
      | Some None => []
      | Some (Some content) => if json_truthy content then [json_text content] else []
      end
  end.

(** [for (const line of lines)]: the fragments yielded, and whether the
    generator returned on [[DONE]]. *)
Fixpoint forLines `{JSON Completion} (lines : list jsstring) : list jsstring * bool :=
  match lines with
  | [] => ([], false)
  | line :: rest =>
      if startsWith line (lit "data: ") then
        let data := slice_from 6 line in
        if str_eqb data (lit "[DONE]") then ([], true)
        else let '(ys, returned) := forLines rest in
             (tryParse data ++ ys, returned)
      else forLines rest
  end.

(** [while (true)] over the reader. *)
Fixpoint readLoop `{JSON Completion} (buffer : jsstring) (reads : list jsstring)
    (fin : option Thrown) : Generated :=
  match reads with
  | [] => mkGenerated [] fin
  | value :: reads' =>
      let buffer := buffer ++ value in
      let lines := split_nl buffer in
      let '(popped, lines) := pop lines in
      let buffer := or_else (default [] popped) [] in
      let '(ys, returned) := forLines lines in
      if returned then mkGenerated ys None
      else let g := readLoop buffer reads' fin in
           mkGenerated (ys ++ yielded g) (ending g)
  end.

Definition openai_http_request (request : OpenAIRequest) (apiKey : jsstring) : HttpRequest :=
  {| url := lit "https://api.openai.com/v1/chat/completions";
     method := lit "POST";
     headers := [ (lit "Content-Type", lit "application/json");
                  (lit "Authorization", lit "Bearer " ++ apiKey) ];
     body := {| body_model := lit "gpt-4o-mini";
                body_messages := messages request;
                body_temperature := (7 # 10)%Q;
                body_max_tokens := 10000;
                body_stream := true |} |}.

Definition callOpenAIStream `{JSON Completion} (fetch : HttpRequest -> FetchOutcome)
    (request : OpenAIRequest) (apiKey : jsstring) : Generated :=
  match fetch (openai_http_request request apiKey) with
  | FetchRejects e => mkGenerated [] (Some e)
  | ResponseNotOk (ErrorBodyThrows e) => mkGenerated [] (Some e)
  | ResponseNotOk (ErrorBodyMessage m) =>
      mkGenerated [] (Some (ErrorObject (or_else (default [] m) (lit "OpenAI API error"))))
  | ResponseNoBody => mkGenerated [] (Some (ErrorObject (lit "No response body")))
  | ResponseBody reads fin => readLoop [] reads fin
  end.

(** *** Gemini *)

Inductive GeminiRole := role_user | role_model.

#[global] Instance GeminiRole_eq_dec : EqDecision GeminiRole.
Proof. solve_decision. Defined.

Record Content := mkContent {
  content_role : GeminiRole;
  parts : list jsstring;            (* [{ text }] entries *)
}.

(** What reaches the SDK: the model configuration, the [history] given
    to [startChat] and the text given to [sendMessageStream]. *)
Record GeminiCall := mkGeminiCall {
  call_apiKey : jsstring;
  call_model : jsstring;
  call_temperature : Q;
  call_maxOutputTokens : N;
  history : list Content;
  latest : jsstring;
}.

(** [chunk.text()] returns a string or throws. *)
Inductive Chunk :=
| ChunkText (text : jsstring)
| ChunkThrows (e : Thrown).

(** What the SDK did with a call: it threw before any chunk arrived
    ([startChat] or [sendMessageStream]), or it streamed chunks until
    the stream ended ([None]) or failed. *)
Inductive SdkOutcome :=
| SendRejects (e : Thrown)
| SdkStream (chunks : list Chunk) (fin : option Thrown).

Definition to_history (messages : list Turn) : list Content :=
  List.map (fun msg =>
         {| content_role := match turn_role msg with
                            | user => role_user
                            | assistant => role_model
                            end;
            parts := [turn_content msg] |})
      (slice_0_m1 messages).

Definition lastMessage (messages : list Turn) : option Turn :=
  js_index messages (Z.of_nat (length messages) - 1).

(** [for await (const chunk of result.stream)] *)
Fixpoint forChunks (chunks : list Chunk) (fin : option Thrown) : Generated :=
  match chunks with
  | [] => mkGenerated [] fin
  | ChunkThrows e :: _ => mkGenerated [] (Some e)
  | ChunkText chunkText :: rest =>
      let g := forChunks rest fin in
      if truthy chunkText then mkGenerated (chunkText :: yielded g) (ending g)
      else g
  end.

(** Reading [.content] of [undefined]; the text is the engine's. *)
Definition undefined_content : Thrown :=
  ErrorObject (lit "Cannot read properties of undefined (reading 'content')").

Definition gemini_call (messages : list Turn) (apiKey : jsstring) : option GeminiCall :=
  let history := to_history messages in
  match lastMessage messages with
  | None => None
  | Some lastMessage =>
      Some {| call_apiKey := apiKey;
              call_model := lit "gemini-1.5-flash-latest";
              call_temperature := (7 # 10)%Q;
              call_maxOutputTokens := 10000;
              history := history;
              latest := turn_content lastMessage |}
  end.

Definition callGeminiStream (sendMessageStream : GeminiCall -> SdkOutcome)
    (messages : list Turn) (apiKey : jsstring) : Generated :=
  match gemini_call messages apiKey with
  | None => mkGenerated [] (Some undefined_content)
  | Some call =>
      match sendMessageStream call with
      | SendRejects e => mkGenerated [] (Some e)
      | SdkStream chunks fin => forChunks chunks fin
      end
  end.


End Api.

(** ** The persistence hook ([hooks/useLocalStorage.ts]) *)

Module UseLocalStorage.

(** [window.localStorage], a map from keys to text.  [window] is [None]
    where [typeof window === 'undefined']. *)
Abbreviation Storage := (gmap jsstring jsstring).

Definition getItem (localStorage : Storage) (key : jsstring) : option jsstring :=
  localStorage !! key.

(** The storage takes every write: no quota is modelled. *)
Definition setItem (localStorage : Storage) (key value : jsstring) : Storage :=
  <[key := value]> localStorage.

(** The initialiser given to [useState]: the value on first load. *)
Definition initial `{JSON T} (window : option Storage) (key : jsstring)
    (initialValue : T) : T :=
  match window with
  | None => initialValue
  | Some localStorage =>
      match getItem localStorage key with
      | None => initialValue                      (* [item] is [null] *)
      | Some item =>
          if truthy item then
            match JSON_parse item with
            | Some v => v
            | None => initialValue                (* [catch] *)
            end
          else initialValue
      end
  end.

(** [setValue]: the argument is a value or a function of the stored
    value.  Returns the new [storedValue] and the storage.  An exception
    of [JSON.stringify] is caught after [setStoredValue] has run. *)
Definition setValue `{JSON T} (key : jsstring) (value : T + (T -> T))
    (storedValue : T) (window : option Storage) : T * option Storage :=
  let valueToStore :=
    match value with
    | inl v => v
    | inr f => f storedValue
    end in
  match window with
  | None => (valueToStore, None)
  | Some localStorage =>
      match JSON_stringify valueToStore with
      | Some text => (valueToStore, Some (setItem localStorage key text))
      | None => (valueToStore, Some localStorage)
      end
  end.

End UseLocalStorage.

(** ** The page ([app/page.tsx]): four persisted values *)

Module Page.
Import UseLocalStorage.

Record Home := mkHome {
  modelProvider : ModelProvider;
  openaiApiKey : jsstring;
  geminiApiKey : jsstring;
  messages : list Message;
  window : option Storage;
}.

Definition key_model : jsstring := lit "chatbot-model".
Definition key_openai : jsstring := lit "openai-api-key".
Definition key_gemini : jsstring := lit "gemini-api-key".
Definition key_messages : jsstring := lit "chatbot-messages".

Section Hooks.
Context `{JSON ModelProvider, JSON jsstring, JSON (list Message)}.

(** First render in a browser whose storage is [window]. *)
Definition load (window : option Storage) : Home :=
  {| modelProvider := initial window key_model openai;
     openaiApiKey := initial window key_openai [];
     geminiApiKey := initial window key_gemini [];
     messages := initial window key_messages [];
     window := window |}.

Definition setModelProvider (v : ModelProvider) (h : Home) : Home :=
  let '(v', w) := setValue key_model (inl v) (modelProvider h) (window h) in
  mkHome v' (openaiApiKey h) (geminiApiKey h) (messages h) w.

Definition setOpenaiApiKey (v : jsstring) (h : Home) : Home :=
  let '(v', w) := setValue key_openai (inl v) (openaiApiKey h) (window h) in
  mkHome (modelProvider h) v' (geminiApiKey h) (messages h) w.

Definition setGeminiApiKey (v : jsstring) (h : Home) : Home :=
  let '(v', w) := setValue key_gemini (inl v) (geminiApiKey h) (window h) in
  mkHome (modelProvider h) (openaiApiKey h) v' (messages h) w.

Definition setMessages (v : list Message) (h : Home) : Home :=
  let '(v', w) := setValue key_messages (inl v) (messages h) (window h) in
  mkHome (modelProvider h) (openaiApiKey h) (geminiApiKey h) v' w.

Definition currentApiKey (h : Home) : jsstring :=
  match modelProvider h with
  | openai => openaiApiKey h
  | gemini => geminiApiKey h
  end.

Definition setCurrentApiKey (h : Home) : jsstring -> Home -> Home :=
  match modelProvider h with
  | openai => setOpenaiApiKey
  | gemini => setGeminiApiKey
  end.

End Hooks.
End Page.

(** ** The credential form ([components/ApiKeyManager.tsx]) *)

Module ApiKeyManager.

Record State := mkState {
  isVisible : bool;
  inputValue : jsstring;
  error : jsstring;
}.

(** Calls of the [onApiKeyChange] prop. *)
Inductive Effect := OnApiKeyChange (apiKey : jsstring).

Definition handleSave (modelProvider : ModelProvider) (st : State) : State * list Effect :=
  if negb (validateApiKey modelProvider (inputValue st)) then
    (mkState (isVisible st) (inputValue st)
       match modelProvider with
       | openai => lit "Please enter a valid OpenAI API key (starts with sk-)"
       | gemini => lit "Please enter a valid Gemini API key"
       end,
     [])
  else
    (mkState (isVisible st) (inputValue st) [], [OnApiKeyChange (inputValue st)]).

Definition handleClear (st : State) : State * list Effect :=
  (mkState (isVisible st) [] [], [OnApiKeyChange []]).

End ApiKeyManager.

(** ** The conversation loop ([components/ChatInterface.tsx]) *)

Module ChatInterface.

Record Props := mkProps {
  modelProvider : ModelProvider;
  apiKey : jsstring;
  messages : list Message;
}.

Record State := mkState {
  input : jsstring;
  isLoading : bool;
  isStreaming : bool;
  streamingMessage : jsstring;
}.

(** What a handler does to the outside, in order: calls of the
    [onMessagesChange] prop, calls of an adapter, and the successive
    values its loop gives to [setStreamingMessage].  The two resets
    [setStreamingMessage('')], before the [try] and in [finally], are
    not listed: they show in the component's state ([Live] below keeps
    every intermediate state). *)
Inductive Effect :=
| OnMessagesChange (messages : list Message)
| CallOpenAIStream (request : Api.OpenAIRequest) (apiKey : jsstring)
| CallGeminiStream (messages : list Api.Turn) (apiKey : jsstring)
| SetStreamingMessage (text : jsstring).

(** What one run of [handleSubmit] reads from outside: the clock at each
    [Date.now()] and [new Date()], in source order, and the remote ends
    of both adapters. *)
Record Env := mkEnv {
  now_user : N;              (* [Date.now()] for the user message id *)
  date_user : N;             (* [new Date()] of the user message *)
  now_assistant : N;         (* [Date.now()] for [assistantMessageId] *)
  date_assistant : N;        (* [new Date()] of the assistant message *)
  now_error : N;             (* [Date.now()] in [catch] *)
  date_error : N;            (* [new Date()] in [catch] *)
  fetch : Api.HttpRequest -> Api.FetchOutcome;
  sendMessageStream : Api.GeminiCall -> Api.SdkOutcome;
}.

(** [newMessages.map((msg) => ({ role: msg.role, content: msg.content }))] *)
Definition to_turns (newMessages : list Message) : list Api.Turn :=
  List.map (fun msg => Api.mkTurn (role msg) (content msg)) newMessages.

(** [for await (const chunk of streamGenerator)], from [fullResponse]:
    the final [fullResponse] and the values displayed on the way. *)
Fixpoint forAwait (fullResponse : jsstring) (chunks : list jsstring)
    : jsstring * list Effect :=
  match chunks with
  | [] => (fullResponse, [])
  | chunk :: rest =>
      let fullResponse := fullResponse ++ chunk in
      let '(final, shown) := forAwait fullResponse rest in
      (final, SetStreamingMessage fullResponse :: shown)
  end.

(** The text of the message built in [catch]. *)
Definition error_content (error : Thrown) : jsstring :=
  lit "Error: " ++ match error with
                   | ErrorObject message => message
                   | NotAnError => lit "Unknown error occurred"
                   end.

(** The [userMessage] object of [handleSubmit]. *)
Definition userMessage (env : Env) (st : State) : Message :=
  {| id := toString (now_user env);
     role := user;
     content := trim (input st);
     timestamp := date_user env |}.

Definition handleSubmit `{JSON Api.Completion} (p : Props) (env : Env) (st : State)
    : State * list Effect :=
  if negb (truthy (trim (input st))) || negb (truthy (apiKey p)) || isLoading st
  then (st, [])
  else
    let userMessage := userMessage env st in
    let newMessages := messages p ++ [userMessage] in
    (* [try]: its effects, and the exception that left it, if any *)
    let tried : list Effect * option Thrown :=
      let assistantMessageId := toString (now_assistant env + 1) in
      match modelProvider p with
      | openai =>
          let openAIMessages := to_turns newMessages in
          let request := Api.mkOpenAIRequest (lit "gpt-4o-mini") openAIMessages in
          let streamGenerator := Api.callOpenAIStream (fetch env) request (apiKey p) in
          let '(fullResponse, shown) := forAwait [] (yielded streamGenerator) in
          match ending streamGenerator with
          | Some error => (CallOpenAIStream request (apiKey p) :: shown, Some error)
          | None =>
              let assistantMessage :=
                {| id := assistantMessageId;
                   role := assistant;
                   content := fullResponse;
                   timestamp := date_assistant env |} in
              (CallOpenAIStream request (apiKey p) :: shown
                 ++ [OnMessagesChange (newMessages ++ [assistantMessage])],
               None)
          end
      | gemini =>
          let geminiMessages := to_turns newMessages in
          let streamGenerator :=
            Api.callGeminiStream (sendMessageStream env) geminiMessages (apiKey p) in
          let '(fullResponse, shown) := forAwait [] (yielded streamGenerator) in
          match ending streamGenerator with
          | Some error => (CallGeminiStream geminiMessages (apiKey p) :: shown, Some error)
          | None =>
              let assistantMessage :=
                {| id := assistantMessageId;
                   role := assistant;
                   content := fullResponse;
                   timestamp := date_assistant env |} in
              (CallGeminiStream geminiMessages (apiKey p) :: shown
                 ++ [OnMessagesChange (newMessages ++ [assistantMessage])],
               None)
          end
      end in
    (* [catch] *)
    let caught : list Effect :=
      match tried.2 with
      | None => []
      | Some error =>
          let errorMessage :=
            {| id := toString (now_error env + 1);
               role := assistant;
               content := error_content error;
               timestamp := date_error env |} in
          [OnMessagesChange (newMessages ++ [errorMessage])]
      end in
    (* [finally]: loading and streaming off, buffer cleared; the input
       was cleared right after the user message was appended *)
    (mkState [] false false [],
     OnMessagesChange newMessages :: tried.1 ++ caught).

(** The [streamGenerator] of the branch [handleSubmit] takes for [p],
    run to its end. *)
Definition streamGenerator `{JSON Api.Completion} (p : Props) (env : Env)
    (newMessages : list Message) : Generated :=
  match modelProvider p with
  | openai =>
      Api.callOpenAIStream (fetch env)
        (Api.mkOpenAIRequest (lit "gpt-4o-mini") (to_turns newMessages)) (apiKey p)
  | gemini =>
      Api.callGeminiStream (sendMessageStream env) (to_turns newMessages) (apiKey p)
  end.

Definition handleClearChat : list Effect := [OnMessagesChange []].

(** The component's state between the synchronous start of an accepted
    [handleSubmit] and its [finally]: first with an empty buffer, then
    with each value given to [setStreamingMessage]. *)
Definition in_flight (shown : list jsstring) : list State :=
  mkState [] true true [] :: List.map (mkState [] true true) shown.

(** The conversations handed to [onMessagesChange], in order. *)
Definition changes (es : list Effect) : list (list Message) :=
  omap (fun e => match e with OnMessagesChange ms => Some ms | _ => None end) es.

(** The adapter invocations among the effects. *)
Definition adapter_calls (es : list Effect) : list Effect :=
  List.filter (fun e => match e with
                        | CallOpenAIStream _ _ | CallGeminiStream _ _ => true
                        | _ => false
                        end) es.

(** The conversation the parent holds after the effects, having held
    [before]. *)
Definition committed (before : list Message) (es : list Effect) : list Message :=
  List.last (changes es) before.


Definition canSendMessage (p : Props) (st : State) : bool :=
  truthy (apiKey p) && truthy (trim (input st)) && negb (isLoading st).

End ChatInterface.

(** ** The page with its three components, driven by user actions

    Here every handler runs to its end before the next action: a
    [Submit] stands for a submit whose stream ends with no other action
    in between.  [Live] below lets actions fall between the steps of a
    running submit. *)

Module App.

Record App := mkApp {
  home : Page.Home;
  chat : ChatInterface.State;
  keyForm : ApiKeyManager.State;
}.

Inductive Action :=
| SelectModel (m : ModelProvider)
| TypeKey (text : jsstring)
| SaveKey
| ClearKey
| TypeInput (text : jsstring)
| Submit (env : ChatInterface.Env)
| ClearChat.

Section Run.
Context `{JSON Api.Completion, JSON ModelProvider, JSON jsstring, JSON (list Message)}.

(** The props [Home] passes to [ChatInterface]. *)
Definition chat_props (h : Page.Home) : ChatInterface.Props :=
  {| ChatInterface.modelProvider := Page.modelProvider h;
     ChatInterface.apiKey := Page.currentApiKey h;
     ChatInterface.messages := Page.messages h |}.

(** [onMessagesChange={setMessages}] *)
Definition chat_effect (h : Page.Home) (e : ChatInterface.Effect) : Page.Home :=
  match e with
  | ChatInterface.OnMessagesChange ms => Page.setMessages ms h
  | _ => h
  end.

(** [onApiKeyChange={setCurrentApiKey}], the setter chosen at render. *)
Definition key_effect (setCurrentApiKey : jsstring -> Page.Home -> Page.Home)
    (h : Page.Home) (e : ApiKeyManager.Effect) : Page.Home :=
  match e with
  | ApiKeyManager.OnApiKeyChange k => setCurrentApiKey k h
  end.

Definition step (a : App) (act : Action) : App :=
  let h := home a in
  match act with
  | SelectModel m => mkApp (Page.setModelProvider m h) (chat a) (keyForm a)
  | TypeKey text =>
      mkApp h (chat a)
        (ApiKeyManager.mkState (ApiKeyManager.isVisible (keyForm a)) text [])
  | SaveKey =>
      (* the button is disabled while [!inputValue.trim()] *)
      if negb (truthy (trim (ApiKeyManager.inputValue (keyForm a)))) then a
      else
        let '(k, es) := ApiKeyManager.handleSave (Page.modelProvider h) (keyForm a) in
        mkApp (foldl (key_effect (Page.setCurrentApiKey h)) h es) (chat a) k
  | ClearKey =>
      (* the button is rendered only when [hasKey] *)
      if bool_decide (0 < length (Page.currentApiKey h))%nat then
        let '(k, es) := ApiKeyManager.handleClear (keyForm a) in
        mkApp (foldl (key_effect (Page.setCurrentApiKey h)) h es) (chat a) k
      else a
  | TypeInput text =>
      (* the field is disabled while [!apiKey || isLoading] *)
      if negb (truthy (Page.currentApiKey h)) || ChatInterface.isLoading (chat a) then a
      else
        mkApp h
          (ChatInterface.mkState text (ChatInterface.isLoading (chat a))
             (ChatInterface.isStreaming (chat a))
             (ChatInterface.streamingMessage (chat a)))
          (keyForm a)
  | Submit env =>
      let '(c, es) := ChatInterface.handleSubmit (chat_props h) env (chat a) in
      mkApp (foldl chat_effect h es) c (keyForm a)
  | ClearChat =>
      (* the button is rendered only when [messages.length > 0] *)
      if bool_decide (0 < length (Page.messages h))%nat then
        mkApp (foldl chat_effect h ChatInterface.handleClearChat) (chat a) (keyForm a)
      else a
  end.

Definition run (a : App) (acts : list Action) : App := foldl step a acts.

(** A fresh page load over the browser's storage. *)
Definition start (window : option UseLocalStorage.Storage) : App :=
  let h := Page.load window in
  mkApp h (ChatInterface.mkState [] false false [])
    (ApiKeyManager.mkState false (Page.currentApiKey h) []).

End Run.
End App.

(** ** Shapes of conversations and of clocks

    A conversation made of exchanges: a user message, then an assistant
    message, any number of times. *)
Fixpoint exchanges (ms : list Message) : bool :=
  match ms with
  | [] => true
  | u :: rest =>
      match rest with
      | [] => false
      | a :: rest' =>
          bool_decide (role u = user) && bool_decide (role a = assistant)
          && exchanges rest'
      end
  end.

(** A Gemini history whose turns alternate, beginning with [expect]. *)
Fixpoint alternates (expect : Api.GeminiRole) (history : list Api.Content) : bool :=
  match history with
  | [] => true
  | c :: rest =>
      bool_decide (Api.content_role c = expect)
      && alternates (match expect with
                     | Api.role_user => Api.role_model
                     | Api.role_model => Api.role_user
                     end) rest
  end.

(** Clock readings of a sequence of actions that keep ids apart: each
    submit begins after every number used for an id so far ([used] is
    the largest), and the clock does not go back while it runs. *)
Fixpoint clock_spaced (used : N) (acts : list App.Action) : Prop :=
  match acts with
  | [] => True
  | App.Submit env :: rest =>
      used < ChatInterface.now_user env
      /\ ChatInterface.now_user env <= ChatInterface.now_assistant env
      /\ ChatInterface.now_user env <= ChatInterface.now_error env
      /\ clock_spaced
           (N.max (ChatInterface.now_assistant env) (ChatInterface.now_error env) + 1)
           rest
  | _ :: rest => clock_spaced used rest
  end.

(** ** The page while a submit is running

    [handleSubmit] is asynchronous: it runs up to the first [await] of
    its loop, and goes on each time the generator yields or ends.  In
    between the page stays usable: keys, provider and Clear Chat work,
    the message field and Send are disabled by [isLoading]. *)

Module Live.

(** [handleSubmit] suspended in its loop: its local variables, what
    the generator has still to give, and what the clock will read when
    the loop is left. *)
Record Suspended := mkSuspended {
  newMessages : list Message;
  assistantMessageId : jsstring;
  fullResponse : jsstring;
  coming : list jsstring;             (* fragments still to be yielded *)
  coming_end : option Thrown;         (* then it returns, or throws *)
  date_assistant : N;                 (* [new Date()] of the assistant message *)
  now_error : N;                      (* [Date.now()] in [catch] *)
  date_error : N;                     (* [new Date()] in [catch] *)
}.

Record Page := mkPage {
  app : App.App;
  suspended : option Suspended;
}.

(** A user action, or the event loop resuming the suspended handler. *)
Inductive Action :=
| Do (act : App.Action)
| Resume.

Section Run.
Context `{JSON Api.Completion, JSON ModelProvider, JSON jsstring, JSON (list Message)}.

(** [handleSubmit] up to its first [await]. *)
Definition submit (pg : Page) (env : ChatInterface.Env) : Page :=
  let a := app pg in
  let p := App.chat_props (App.home a) in
  let st := App.chat a in
  if negb (truthy (trim (ChatInterface.input st)))
     || negb (truthy (ChatInterface.apiKey p)) || ChatInterface.isLoading st
  then pg
  else
    let userMessage := ChatInterface.userMessage env st in
    let newMessages := ChatInterface.messages p ++ [userMessage] in
    (* onMessagesChange(newMessages); setInput(''); setIsLoading(true);
       setIsStreaming(true); setStreamingMessage('') *)
    let h := Page.setMessages newMessages (App.home a) in
    let st := ChatInterface.mkState [] true true [] in
    let streamGenerator := ChatInterface.streamGenerator p env newMessages in
    mkPage (App.mkApp h st (App.keyForm a))
      (Some {| newMessages := newMessages;
               assistantMessageId := toString (ChatInterface.now_assistant env + 1);
               fullResponse := [];
               coming := yielded streamGenerator;
               coming_end := ending streamGenerator;
               date_assistant := ChatInterface.date_assistant env;
               now_error := ChatInterface.now_error env;
               date_error := ChatInterface.date_error env |}).

(** The handler goes on: one more fragment, or the end of the loop with
    the commit of the reply (or of the error) and [finally]. *)
Definition resume (pg : Page) : Page :=
  let a := app pg in
  let st := App.chat a in
  match suspended pg with
  | None => pg
  | Some s =>
      match coming s with
      | chunk :: rest =>
          let fullResponse := fullResponse s ++ chunk in
          (* setStreamingMessage(fullResponse) *)
          mkPage
            (App.mkApp (App.home a)
               (ChatInterface.mkState (ChatInterface.input st)
                  (ChatInterface.isLoading st) (ChatInterface.isStreaming st)
                  fullResponse)
               (App.keyForm a))
            (Some (mkSuspended (newMessages s) (assistantMessageId s) fullResponse
                     rest (coming_end s)
                     (date_assistant s) (now_error s) (date_error s)))
      | [] =>
          let last :=
            match coming_end s with
            | None =>
                {| id := assistantMessageId s;
                   role := assistant;
                   content := fullResponse s;
                   timestamp := date_assistant s |}
            | Some error =>
                {| id := toString (now_error s + 1);
                   role := assistant;
                   content := ChatInterface.error_content error;
                   timestamp := date_error s |}
            end in
          (* onMessagesChange([...newMessages, last]); then [finally] *)
          mkPage
            (App.mkApp (Page.setMessages (newMessages s ++ [last]) (App.home a))
               (ChatInterface.mkState (ChatInterface.input st) false false [])
               (App.keyForm a))
            None
      end
  end.

Definition step (pg : Page) (act : Action) : Page :=
  match act with
  | Do (App.Submit env) => submit pg env
  | Do act => mkPage (App.step (app pg) act) (suspended pg)
  | Resume => resume pg
  end.

Definition run (pg : Page) (acts : list Action) : Page := foldl step pg acts.

(** Actions of the user, then the handler resumed; and so on. *)
Definition interleave (between : list (list App.Action)) : list Action :=
  List.concat (List.map (fun acts => List.map Do acts ++ [Resume]) between).

End Run.


(** The user's actions among [acts]. *)
Definition user_actions (acts : list Action) : list App.Action :=
  omap (fun act => match act with Do a => Some a | Resume => None end) acts.

(** The id of the message the handler commits when its loop is left. *)
Definition pending_id (s : Suspended) : jsstring :=
  match coming_end s with
  | None => assistantMessageId s
  | Some _ => toString (now_error s + 1)
  end.

(** The ids in play are the decimal texts of distinct numbers up to
    [used]: those of the conversation when no submit is running; while
    one is running, those of its [newMessages] and of the message it
    will commit, the conversation being [newMessages] or cleared. *)
Definition ids_below (used : N) (pg : Page) : Prop :=
  exists ns : list N,
    NoDup ns /\ Forall (fun n => n <= used) ns
    /\ match suspended pg with
       | None => List.map id (Page.messages (App.home (app pg))) = List.map toString ns
       | Some s =>
           ChatInterface.isLoading (App.chat (app pg)) = true
           /\ (Page.messages (App.home (app pg)) = []
               \/ Page.messages (App.home (app pg)) = newMessages s)
           /\ List.map id (newMessages s) ++ [pending_id s] = List.map toString ns
       end.

(** A submit is running with the variables [s]: the handler is
    suspended, and the component, loading, shows what was received. *)
Definition running_with (pg : Page) (input : jsstring) (s : Suspended) : Prop :=
  suspended pg = Some s
  /\ App.chat (app pg) = ChatInterface.mkState input true true (fullResponse s).

End Live.

(** ** Sample values of the host's built-ins, for running the model

    A finite part of the graph of [JSON.parse] / [JSON.stringify]: a
    text outside the table does not parse, a value outside it is not
    written. *)

Module Sample.

Definition table_JSON {T} `{EqDecision T} (table : list (jsstring * T)) : JSON T :=
  {| JSON_stringify v := fst <$> List.find (fun e => bool_decide (snd e = v)) table;
     JSON_parse s := snd <$> List.find (fun e => str_eqb (fst e) s) table |}.

Definition quoted (s : String.string) : jsstring := [34] ++ lit s ++ [34].

(** [{"choices":[{"delta":{"content":"..."}}]}] *)
Definition delta_text (text : String.string) : jsstring :=
  lit "{" ++ quoted "choices" ++ lit ":[{" ++ quoted "delta" ++ lit ":{"
  ++ quoted "content" ++ lit ":" ++ quoted text ++ lit "}}]}".

(** [{"choices":[{"delta":{}}]}] *)
Definition delta_empty : jsstring :=
  lit "{" ++ quoted "choices" ++ lit ":[{" ++ quoted "delta" ++ lit ":{}}]}".

(** [{"choices":[{"delta":{"content":null}}]}] *)
Definition delta_null : jsstring :=
  lit "{" ++ quoted "choices" ++ lit ":[{" ++ quoted "delta" ++ lit ":{"
  ++ quoted "content" ++ lit ":null}}]}".

Definition with_content (text : String.string) : Api.Completion :=
  Api.mkCompletion
    (Some [Api.mkChoice (Some (Api.mkDelta (Some (Api.JsonString (lit text)))))]).

#[global] Instance JsonValue_eq_dec : EqDecision Api.JsonValue.
Proof. solve_decision. Defined.
#[global] Instance Delta_eq_dec : EqDecision Api.Delta.
Proof. solve_decision. Defined.
#[global] Instance Choice_eq_dec : EqDecision Api.Choice.
Proof. solve_decision. Defined.
#[global] Instance Completion_eq_dec : EqDecision Api.Completion.
Proof. solve_decision. Defined.

Definition completions : JSON Api.Completion :=
  table_JSON
    [ (delta_text "Hi", with_content "Hi");
      (delta_text " there", with_content " there");
      (delta_text "!", with_content "!");
      (delta_text "", with_content "");
      (delta_empty, Api.mkCompletion (Some [Api.mkChoice (Some (Api.mkDelta None))]));
      (lit "{}", Api.mkCompletion None);
      (delta_null,
       Api.mkCompletion
         (Some [Api.mkChoice
                  (Some (Api.mkDelta (Some (Api.JsonOther false (lit "null")))))])) ].

Definition conversations : JSON (list Message) := table_JSON [ (lit "[]", []) ].

Definition providers : JSON ModelProvider :=
  table_JSON [ (quoted "openai", openai); (quoted "gemini", gemini) ].

Definition keys : JSON jsstring :=
  table_JSON [ (quoted "", []); (quoted "sk-test", lit "sk-test");
               (quoted "AIzaSy-sample-key", lit "AIzaSy-sample-key") ].

(** A server-sent event line with its terminating blank line. *)
Definition event (data : jsstring) : jsstring := lit "data: " ++ data ++ [10; 10].

(** A clock stopped at [t], and remote ends that answer [out] and [sdk]. *)
Definition env_at (t : N) (out : Api.FetchOutcome) (sdk : Api.SdkOutcome)
    : ChatInterface.Env :=
  {| ChatInterface.now_user := t;
     ChatInterface.date_user := t;
     ChatInterface.now_assistant := t;
     ChatInterface.date_assistant := t;
     ChatInterface.now_error := t;
     ChatInterface.date_error := t;
     ChatInterface.fetch := fun _ => out;
     ChatInterface.sendMessageStream := fun _ => sdk |}.

Definition offline : Thrown := ErrorObject (lit "Failed to fetch").

(** A browser that is offline: both remote ends fail at once. *)
Definition offline_at (t : N) : ChatInterface.Env :=
  env_at t (Api.FetchRejects offline) (Api.SendRejects offline).

(** Save a key, send a message while offline with the clock at 1000,
    and send again one millisecond later. *)
Definition resubmit_next_millisecond : list App.Action :=
  [ App.TypeKey (lit "sk-test"); App.SaveKey;
    App.TypeInput (lit "hello"); App.Submit (offline_at 1000);
    App.TypeInput (lit "again"); App.Submit (offline_at 1001) ].

(** The page after these actions, started over empty storage. *)
Definition after_resubmit : App.App :=
  @App.run completions providers keys conversations
    (@App.start providers keys conversations (Some ∅))
    resubmit_next_millisecond.

(** The scenario of the specification: an empty conversation, a valid
    credential, the input [hello], and a provider that answers [Hi],
    [ there], [!].  The OpenAI body is cut into two reads and carries a
    line that does not parse; the Gemini stream carries an empty chunk. *)
Definition openai_props : ChatInterface.Props :=
  ChatInterface.mkProps openai (lit "sk-test") [].

Definition gemini_props : ChatInterface.Props :=
  ChatInterface.mkProps gemini (lit "AIzaSy-sample-key") [].

Definition typed_hello : ChatInterface.State :=
  ChatInterface.mkState (lit " hello ") false false [].

Definition hi_there_reads : list jsstring :=
  [ event (delta_text "Hi") ++ lit "data: {oops" ++ [10; 10] ++ lit "data: ";
    delta_text " there" ++ [10; 10] ++ event (delta_text "!") ++ event (lit "[DONE]") ].

Definition hi_there_chunks : list Api.Chunk :=
  [ Api.ChunkText (lit "Hi"); Api.ChunkText []; Api.ChunkText (lit " there");
    Api.ChunkText (lit "!") ].

Definition hi_there : ChatInterface.Env :=
  env_at 1000 (Api.ResponseBody hi_there_reads None) (Api.SdkStream hi_there_chunks None).

(** The resubmission again, a second later. *)
Definition resubmit_next_second : list App.Action :=
  [ App.TypeKey (lit "sk-test"); App.SaveKey;
    App.TypeInput (lit "hello"); App.Submit (offline_at 1000);
    App.TypeInput (lit "again"); App.Submit (offline_at 2000) ].

(** A fresh page over empty storage, and the page with a key saved and
    [hello] typed, for either provider. *)
Definition fresh : App.App := @App.start providers keys conversations (Some ∅).

Definition ready_openai : App.App :=
  @App.run completions providers keys conversations fresh
    [ App.TypeKey (lit "sk-test"); App.SaveKey; App.TypeInput (lit " hello ") ].

Definition ready_gemini : App.App :=
  @App.run completions providers keys conversations fresh
    [ App.SelectModel gemini; App.TypeKey (lit "AIzaSy-sample-key"); App.SaveKey;
      App.TypeInput (lit " hello ") ].

(** Either page after a first exchange, with [again] typed. *)
Definition talked_openai : App.App :=
  @App.run completions providers keys conversations ready_openai
    [ App.Submit hi_there; App.TypeInput (lit "again") ].

Definition talked_gemini : App.App :=
  @App.run completions providers keys conversations ready_gemini
    [ App.Submit hi_there; App.TypeInput (lit "again") ].

#[global] Instance Q_eq_dec : EqDecision Q.
Proof. solve_decision. Defined.
#[global] Instance Turn_eq_dec : EqDecision Api.Turn.
Proof. solve_decision. Defined.
#[global] Instance OpenAIBody_eq_dec : EqDecision Api.OpenAIBody.
Proof. solve_decision. Defined.
#[global] Instance HttpRequest_eq_dec : EqDecision Api.HttpRequest.
Proof. solve_decision. Defined.
#[global] Instance Content_eq_dec : EqDecision Api.Content.
Proof. solve_decision. Defined.
#[global] Instance GeminiCall_eq_dec : EqDecision Api.GeminiCall.
Proof. solve_decision. Defined.

(** A remote end that answers [y] to the request [x] and [z] to any
    other. *)
Definition answering {A B} `{EqDecision A} (x : A) (y z : B) : A -> B :=
  fun r => if decide (r = x) then y else z.




(** The first exchange and the next message, as the adapters get them,
    and what each adapter is to send for them. *)
Definition earlier_turns : list Api.Turn :=
  [ Api.mkTurn user (lit "hello"); Api.mkTurn assistant (lit "Hi there!") ].

Definition again_turn : Api.Turn := Api.mkTurn user (lit "again").

Definition flat_request : Api.HttpRequest :=
  {| Api.url := lit "https://api.openai.com/v1/chat/completions";
     Api.method := lit "POST";
     Api.headers := [ (lit "Content-Type", lit "application/json");
                      (lit "Authorization", lit "Bearer sk-test") ];
     Api.body :=
       {| Api.body_model := lit "gpt-4o-mini";
          Api.body_messages :=
            [ Api.mkTurn user (lit "hello"); Api.mkTurn assistant (lit "Hi there!");
              Api.mkTurn user (lit "again") ];
          Api.body_temperature := (7 # 10)%Q;
          Api.body_max_tokens := 10000;
          Api.body_stream := true |} |}.

Definition split_call : Api.GeminiCall :=
  {| Api.call_apiKey := lit "AIzaSy-sample-key";
     Api.call_model := lit "gemini-1.5-flash-latest";
     Api.call_temperature := (7 # 10)%Q;
     Api.call_maxOutputTokens := 10000;
     Api.history := [ Api.mkContent Api.role_user [lit "hello"];
                      Api.mkContent Api.role_model [lit "Hi there!"] ];
     Api.latest := lit "again" |}.

(** The clock stopped at [t]; [fetch] answers the body of [hi_there] to
    [flat_request] only, the SDK its chunks to [split_call] only. *)
Definition picky_at (t : N) : ChatInterface.Env :=
  {| ChatInterface.now_user := t;
     ChatInterface.date_user := t;
     ChatInterface.now_assistant := t;
     ChatInterface.date_assistant := t;
     ChatInterface.now_error := t;
     ChatInterface.date_error := t;
     ChatInterface.fetch :=
       answering flat_request (Api.ResponseBody hi_there_reads None)
         (Api.FetchRejects offline);
     ChatInterface.sendMessageStream :=
       answering split_call (Api.SdkStream hi_there_chunks None)
         (Api.SendRejects offline) |}.

(** The answers of [hi_there], to whatever is asked, a second later. *)
Definition hi_there_again : ChatInterface.Env :=
  env_at 2000 (Api.ResponseBody hi_there_reads None) (Api.SdkStream hi_there_chunks None).

(** The same, from an SDK that answers only a call of two alternating
    turns beginning with the user's. *)
Definition after_turns_at_2000 : ChatInterface.Env :=
  {| ChatInterface.now_user := 2000;
     ChatInterface.date_user := 2000;
     ChatInterface.now_assistant := 2000;
     ChatInterface.date_assistant := 2000;
     ChatInterface.now_error := 2000;
     ChatInterface.date_error := 2000;
     ChatInterface.fetch := fun _ => Api.FetchRejects offline;
     ChatInterface.sendMessageStream :=
       fun call =>
         if alternates Api.role_user (Api.history call)
            && bool_decide (length (Api.history call) = 2%nat)
         then Api.SdkStream hi_there_chunks None
         else Api.SendRejects offline |}.

(** A first message whose reply streams while the user clears the
    chat, then a second one, sent a second later while offline. *)
Definition interleaved_resubmit : list Live.Action :=
  [ Live.Do (App.TypeKey (lit "sk-test")); Live.Do App.SaveKey;
    Live.Do (App.TypeInput (lit "hello")); Live.Do (App.Submit hi_there);
    Live.Resume; Live.Do App.ClearChat; Live.Resume; Live.Resume; Live.Resume;
    Live.Do (App.TypeInput (lit "again")); Live.Do (App.Submit (offline_at 2000));
    Live.Resume ].

(** A message to tell defaults apart. *)
Definition greeting : Message :=
  {| id := lit "1"; role := user; content := lit "hello"; timestamp := 1 |}.

End Sample.

(** * Properties *)

(** ** Strings *)

Section Strings.
Implicit Types s p : jsstring.

Lemma truthy_true s : truthy s = true <-> s <> [].
Proof. by destruct s. Qed.

Lemma truthy_false s : truthy s = false <-> s = [].
Proof. by destruct s. Qed.

Lemma str_eqb_eq s p : str_eqb s p = true <-> s = p.
Proof. unfold str_eqb. by rewrite bool_decide_eq_true. Qed.

Lemma blank_nil : blank [].
Proof. constructor. Qed.

Lemma blank_app s p : blank (s ++ p) <-> blank s /\ blank p.
Proof. apply Forall_app. Qed.

Lemma blank_rev s : blank (rev s) <-> blank s.
Proof.
  unfold blank. split; intros Hs.
  - rewrite <- (rev_involutive s). by apply List.Forall_rev.
  - by apply List.Forall_rev.
Qed.

(** [trimStart] removes a blank prefix and nothing else. *)
Lemma trimStart_split s : exists l, s = l ++ trimStart s /\ blank l.
Proof.
  induction s as [|c s [l [Hl Hb]]]; simpl.
  - exists []. split; [done | apply blank_nil].
  - destruct (is_white c) eqn:Hc.
    + exists (c :: l). split; [by rewrite Hl at 1 | by constructor].
    + exists []. split; [done | apply blank_nil].
Qed.

Lemma trimStart_head s c t : trimStart s = c :: t -> is_white c = false.
Proof.
  induction s as [|d s IH]; simpl; [done |].
  destruct (is_white d) eqn:Hd; [done | congruence].
Qed.

Lemma trimStart_blank s : trimStart s = [] <-> blank s.
Proof.
  split.
  - intros Hs. destruct (trimStart_split s) as [l [Hl Hb]].
    rewrite Hs, app_nil_r in Hl. by subst.
  - induction 1 as [|c s Hc _ IH]; simpl; [done | by rewrite Hc].
Qed.

(** A string that ends with a visible unit keeps it under [trimStart]. *)
Lemma trimStart_snoc s c :
  is_white c = false -> exists t, trimStart (s ++ [c]) = t ++ [c].
Proof.
  intros Hc. induction s as [|d s [t Ht]]; simpl.
  - rewrite Hc. by exists [].
  - destruct (is_white d); [by exists t |]. by exists (d :: s).
Qed.

Lemma trimEnd_split s : exists r, s = trimEnd s ++ r /\ blank r.
Proof.
  destruct (trimStart_split (rev s)) as [l [Hl Hb]].
  exists (rev l). split; [| by apply blank_rev].
  unfold trimEnd. rewrite <- rev_app_distr, <- Hl. by rewrite rev_involutive.
Qed.

Lemma trimEnd_last s t c : trimEnd s = t ++ [c] -> is_white c = false.
Proof.
  unfold trimEnd. intros Hs.
  apply (f_equal (@rev N)) in Hs. rewrite rev_involutive, rev_app_distr in Hs.
  by apply trimStart_head in Hs.
Qed.

Lemma trimEnd_head s c :
  is_white c = false -> exists t', trimEnd (c :: s) = c :: t'.
Proof.
  intros Hc. unfold trimEnd. simpl.
  destruct (trimStart_snoc (rev s) c Hc) as [u Hu].
  rewrite Hu, rev_app_distr. by exists (rev u).
Qed.

Lemma trim_blank s : trim s = [] <-> blank s.
Proof.
  unfold trim. split.
  - intros Hs. apply trimStart_blank.
    destruct (trimStart s) as [|c t] eqn:Ht; [done |].
    destruct (trimEnd_head t c (trimStart_head _ _ _ Ht)) as [t' Ht'].
    congruence.
  - intros Hs. apply trimStart_blank in Hs. by rewrite Hs.
Qed.

(** What [trim] returns: the input without a blank prefix and a blank
    suffix, neither beginning nor ending with white space. *)
Lemma trim_spec s :
  (exists l r, s = l ++ trim s ++ r /\ blank l /\ blank r)
  /\ (forall c t, trim s = c :: t -> is_white c = false)
  /\ (forall t c, trim s = t ++ [c] -> is_white c = false).
Proof.
  unfold trim. split; [| split].
  - destruct (trimStart_split s) as [l [Hl Hbl]].
    destruct (trimEnd_split (trimStart s)) as [r [Hr Hbr]].
    exists l, r. by rewrite <- Hr.
  - intros c t Hs.
    destruct (trimStart s) as [|d u] eqn:Hu; [done |].
    pose proof (trimStart_head _ _ _ Hu) as Hd.
    destruct (trimEnd_head u d Hd) as [t' Ht']. congruence.
  - intros t c. apply trimEnd_last.
Qed.

Lemma startsWith_spec s p : startsWith s p = true <-> exists rest, s = p ++ rest.
Proof.
  revert s. induction p as [|a p IH]; intros s; simpl.
  - split; [by exists s | intros _; reflexivity].
  - destruct s as [|b s].
    { split; [done | intros [rest Hr]; discriminate Hr]. }
    rewrite andb_true_iff, N.eqb_eq, IH. split.
    + intros [-> [rest ->]]. by exists rest.
    + intros [rest Hr]. simplify_eq. split; [done | by exists rest].
Qed.

End Strings.

(** ** The credential check and the save action *)

Section Credential.
Context `{JSON Api.Completion, JSON ModelProvider, JSON jsstring, JSON (list Message)}.
Implicit Types key : jsstring.

Lemma validateApiKey_blank provider key :
  blank key -> validateApiKey provider key = false.
Proof.
  intros Hb. unfold validateApiKey.
  apply trim_blank in Hb. rewrite Hb.
  by rewrite (proj2 (str_eqb_eq [] [])), orb_true_r.
Qed.

Lemma validateApiKey_visible provider key :
  ~ blank key ->
  validateApiKey provider key =
    match provider with
    | openai => startsWith key (lit "sk-")
    | gemini => bool_decide (10 < length key)%nat
    end.
Proof.
  intros Hb. unfold validateApiKey.
  destruct key as [|c key]; [destruct Hb; apply blank_nil |]. simpl truthy.
  destruct (str_eqb (trim (c :: key)) []) eqn:He; [| done].
  apply str_eqb_eq, trim_blank in He. done.
Qed.

Lemma sk_prefix_visible rest : ~ blank (lit "sk-" ++ rest).
Proof. intros Hb. inversion Hb as [|? ? Hc _]. discriminate Hc. Qed.

(** Saving changes nothing but the form's message when the check fails,
    and stores the typed key for the selected provider when it passes. *)
Lemma step_SaveKey_rejected (a : App.App) :
  validateApiKey (Page.modelProvider (App.home a))
    (ApiKeyManager.inputValue (App.keyForm a)) = false ->
  App.home (App.step a App.SaveKey) = App.home a.
Proof.
  intros Hv. unfold App.step, ApiKeyManager.handleSave.
  destruct (negb (truthy _)); [done |]. by rewrite Hv.
Qed.

Lemma setCurrentApiKey_current (h : Page.Home) key :
  Page.currentApiKey (Page.setCurrentApiKey h key h) = key
  /\ Page.modelProvider (Page.setCurrentApiKey h key h) = Page.modelProvider h.
Proof.
  unfold Page.setCurrentApiKey, Page.currentApiKey.
  destruct (Page.modelProvider h) eqn:Hm;
    unfold Page.setOpenaiApiKey, Page.setGeminiApiKey, UseLocalStorage.setValue;
    destruct (Page.window h); try destruct (JSON_stringify key);
    simpl; by rewrite ?Hm.
Qed.

Lemma step_SaveKey_accepted (a : App.App) :
  validateApiKey (Page.modelProvider (App.home a))
    (ApiKeyManager.inputValue (App.keyForm a)) = true ->
  Page.currentApiKey (App.home (App.step a App.SaveKey))
  = ApiKeyManager.inputValue (App.keyForm a).
Proof.
  intros Hv. unfold App.step, ApiKeyManager.handleSave.
  destruct (truthy (trim _)) eqn:Ht; simpl.
  - rewrite Hv. simpl. apply setCurrentApiKey_current.
  - apply truthy_false, trim_blank in Ht.
    by rewrite validateApiKey_blank in Hv.
Qed.

(** C5. [validateApiKey] rejects every empty or whitespace-only key;
    for [openai] it accepts exactly the keys that begin with [sk-]; for
    [gemini] it accepts exactly the keys, not whitespace-only, of more
    than 10 code units.  [handleSave] calls [onApiKeyChange] with the
    typed key exactly when the check passes, and otherwise sets an error
    message and calls nothing, so that the stored credential (indeed
    everything the page persists) is left as it was. *)
Theorem validateApiKey_gates_save :
  (forall provider key, blank key -> validateApiKey provider key = false)
  /\ (forall key,
        validateApiKey openai key = true <-> exists rest, key = lit "sk-" ++ rest)
  /\ (forall key,
        validateApiKey gemini key = true <-> (10 < length key)%nat /\ ~ blank key)
  /\ (forall provider st,
        if validateApiKey provider (ApiKeyManager.inputValue st)
        then (ApiKeyManager.handleSave provider st).2
               = [ApiKeyManager.OnApiKeyChange (ApiKeyManager.inputValue st)]
             /\ ApiKeyManager.error (ApiKeyManager.handleSave provider st).1 = []
        else (ApiKeyManager.handleSave provider st).2 = []
             /\ ApiKeyManager.error (ApiKeyManager.handleSave provider st).1 <> [])
  /\ (forall a : App.App,
        if validateApiKey (Page.modelProvider (App.home a))
             (ApiKeyManager.inputValue (App.keyForm a))
        then Page.currentApiKey (App.home (App.step a App.SaveKey))
             = ApiKeyManager.inputValue (App.keyForm a)
        else App.home (App.step a App.SaveKey) = App.home a).
Proof.
  split; [| split; [| split; [| split]]].
  - apply validateApiKey_blank.
  - intros key. split.
    + intros Hv. apply startsWith_spec.
      destruct (decide (blank key)) as [Hb | Hb].
      * by rewrite validateApiKey_blank in Hv.
      * by rewrite validateApiKey_visible in Hv.
    + intros [rest ->].
      rewrite validateApiKey_visible by apply sk_prefix_visible.
      apply startsWith_spec. by exists rest.
  - intros key. split.
    + intros Hv. destruct (decide (blank key)) as [Hb | Hb].
      * by rewrite validateApiKey_blank in Hv.
      * rewrite validateApiKey_visible in Hv by done.
        by apply bool_decide_eq_true in Hv.
    + intros [Hl Hb]. rewrite validateApiKey_visible by done.
      by apply bool_decide_eq_true.
  - intros provider st. unfold ApiKeyManager.handleSave.
    destruct (validateApiKey provider _); simpl; [done |].
    split; [done |]. by destruct provider.
  - intros a. destruct (validateApiKey _ _) eqn:Hv.
    + by apply step_SaveKey_accepted.
    + by apply step_SaveKey_rejected.
Qed.

End Credential.

(** ** The conversation loop *)

Section Conversation.
Context `{JSON Api.Completion}.
Import ChatInterface.
Implicit Types (p : Props) (env : Env) (st : State) (es : list Effect).

Lemma guard_canSendMessage p st :
  negb (truthy (trim (input st))) || negb (truthy (apiKey p)) || isLoading st
  = negb (canSendMessage p st).
Proof.
  unfold canSendMessage.
  by destruct (truthy (trim _)), (truthy (apiKey p)), (isLoading st).
Qed.

(** The loop appends each fragment to what it has, and shows it. *)
Lemma forAwait_spec (fullResponse : jsstring) (chunks : list jsstring) :
  (forAwait fullResponse chunks).1 = fullResponse ++ concat chunks
  /\ changes (forAwait fullResponse chunks).2 = []
  /\ adapter_calls (forAwait fullResponse chunks).2 = [].
Proof.
  revert fullResponse. induction chunks as [|chunk rest IH]; intros fullResponse; simpl.
  - by rewrite app_nil_r.
  - specialize (IH (fullResponse ++ chunk)).
    destruct (forAwait (fullResponse ++ chunk) rest) as [final shown].
    simpl in *. by rewrite <- app_assoc in IH.
Qed.

Lemma changes_app es es' : changes (es ++ es') = changes es ++ changes es'.
Proof. apply omap_app. Qed.

Lemma committed_snoc before es ms :
  committed before (es ++ [OnMessagesChange ms]) = ms.
Proof. unfold committed. rewrite changes_app. simpl. by rewrite last_last. Qed.

Lemma changes_cons_call call es :
  adapter_calls [call] = [call] -> changes (call :: es) = changes es.
Proof. intros Hcall. destruct call; simpl in Hcall; try discriminate; reflexivity. Qed.

Lemma changes_run ms0 call shown ms1 :
  adapter_calls [call] = [call] -> changes shown = [] ->
  changes (OnMessagesChange ms0 :: (call :: shown) ++ [OnMessagesChange ms1])
  = [ms0; ms1].
Proof.
  intros Hcall Hshown.
  change (changes (OnMessagesChange ms0 :: ?es)) with (ms0 :: changes es).
  by rewrite changes_app, changes_cons_call, Hshown.
Qed.

(** An accepted submit whose generator returns: the component is idle
    again and [onMessagesChange] was called twice. *)
Lemma handleSubmit_returned p env st fragments :
  canSendMessage p st = true ->
  streamGenerator p env (messages p ++ [userMessage env st])
    = mkGenerated fragments None ->
  (handleSubmit p env st).1 = mkState [] false false []
  /\ changes (handleSubmit p env st).2
     = [ messages p ++ [userMessage env st];
         (messages p ++ [userMessage env st])
         ++ [ {| id := toString (now_assistant env + 1);
                 role := assistant;
                 content := concat fragments;
                 timestamp := date_assistant env |} ] ].
Proof.
  intros Hc Hg. unfold handleSubmit, streamGenerator in *.
  rewrite guard_canSendMessage, Hc. simpl negb. cbv iota.
  destruct (forAwait_spec [] fragments) as [Hfull [Hshown _]].
  destruct (modelProvider p); cbv zeta; rewrite Hg; simpl yielded; simpl ending;
    destruct (forAwait [] fragments) as [fullResponse shown]; simpl in Hfull, Hshown;
    subst fullResponse; cbn [fst snd]; (split; [done |]);
    rewrite app_nil_r; by apply changes_run.
Qed.

(** An accepted submit whose generator throws [error]. *)
Lemma handleSubmit_threw p env st fragments error :
  canSendMessage p st = true ->
  streamGenerator p env (messages p ++ [userMessage env st])
    = mkGenerated fragments (Some error) ->
  (handleSubmit p env st).1 = mkState [] false false []
  /\ changes (handleSubmit p env st).2
     = [ messages p ++ [userMessage env st];
         (messages p ++ [userMessage env st])
         ++ [ {| id := toString (now_error env + 1);
                 role := assistant;
                 content := error_content error;
                 timestamp := date_error env |} ] ].
Proof.
  intros Hc Hg. unfold handleSubmit, streamGenerator in *.
  rewrite guard_canSendMessage, Hc. simpl negb. cbv iota.
  destruct (forAwait_spec [] fragments) as [_ [Hshown _]].
  destruct (modelProvider p); cbv zeta; rewrite Hg; simpl yielded; simpl ending;
    destruct (forAwait [] fragments) as [fullResponse shown]; simpl in Hshown;
    cbn [fst snd]; (split; [done |]); by apply changes_run.
Qed.

(** Each conversation handed over by an accepted submit extends the one
    it started from by the user message. *)
Lemma handleSubmit_accepted_changes p env st :
  canSendMessage p st = true ->
  exists m, changes (handleSubmit p env st).2
            = [ messages p ++ [userMessage env st];
                (messages p ++ [userMessage env st]) ++ [m] ].
Proof.
  intros Hc.
  destruct (streamGenerator p env (messages p ++ [userMessage env st]))
    as [fragments [error |]] eqn:Hg.
  - destruct (handleSubmit_threw p env st fragments error Hc Hg) as [_ ->]. eauto.
  - destruct (handleSubmit_returned p env st fragments Hc Hg) as [_ ->]. eauto.
Qed.

(** C1. When the generator of the active adapter (OpenAI or Gemini
    branch alike) yields the fragments F1..Fn and returns, the
    conversation committed by an accepted submit is the one before it,
    the user message, and an assistant message whose text is
    F1+F2+...+Fn in order. *)
Theorem finalized_text_is_concatenation p env st (fragments : list jsstring) :
  canSendMessage p st = true ->
  streamGenerator p env (messages p ++ [userMessage env st])
    = mkGenerated fragments None ->
  committed (messages p) (handleSubmit p env st).2
  = messages p
    ++ [ userMessage env st;
         {| id := toString (now_assistant env + 1);
            role := assistant;
            content := concat fragments;
            timestamp := date_assistant env |} ].
Proof.
  intros Hc Hg. unfold committed.
  destruct (handleSubmit_returned p env st fragments Hc Hg) as [_ ->].
  simpl. by rewrite <- app_assoc.
Qed.

(** C2. When the generator of the active adapter throws, an accepted
    submit hands [onMessagesChange] two conversations: the one before it
    with the user message appended, and then that one with exactly one
    more message, an assistant message whose text describes the error.
    Every earlier message is as it was, and the component is idle
    again: not loading, not streaming, the buffer and the input empty. *)
Theorem failing_adapter_appends_one_error_message p env st
    (fragments : list jsstring) (error : Thrown) :
  canSendMessage p st = true ->
  streamGenerator p env (messages p ++ [userMessage env st])
    = mkGenerated fragments (Some error) ->
  let errorMessage :=
    {| id := toString (now_error env + 1);
       role := assistant;
       content := lit "Error: "
                  ++ match error with
                     | ErrorObject message => message
                     | NotAnError => lit "Unknown error occurred"
                     end;
       timestamp := date_error env |} in
  changes (handleSubmit p env st).2
    = [ messages p ++ [userMessage env st];
        messages p ++ [userMessage env st; errorMessage] ]
  /\ committed (messages p) (handleSubmit p env st).2
     = messages p ++ [userMessage env st; errorMessage]
  /\ (handleSubmit p env st).1 = mkState [] false false [].
Proof.
  intros Hc Hg errorMessage. unfold committed.
  destruct (handleSubmit_threw p env st fragments error Hc Hg) as [-> ->].
  simpl. by rewrite <- !app_assoc.
Qed.

(** C3. A submit while the input is empty or whitespace-only, or the
    credential is empty, or a request is in flight, does nothing: the
    component state is unchanged and there is no effect at all, hence no
    call of [onMessagesChange] and no adapter invocation, and the
    conversation stays as it was. *)
Theorem rejected_submit_does_nothing p env st :
  blank (input st) \/ apiKey p = [] \/ isLoading st = true ->
  handleSubmit p env st = (st, [])
  /\ changes (handleSubmit p env st).2 = []
  /\ adapter_calls (handleSubmit p env st).2 = []
  /\ committed (messages p) (handleSubmit p env st).2 = messages p.
Proof.
  intros Hr.
  assert (handleSubmit p env st = (st, [])) as ->; [| done].
  unfold handleSubmit.
  destruct Hr as [Hb | [Hk | Hl]].
  - apply trim_blank in Hb. by rewrite Hb.
  - rewrite Hk. simpl. by rewrite orb_true_r.
  - rewrite Hl. by rewrite orb_true_r.
Qed.

(** While an accepted submit runs, the component is loading. *)
Lemma in_flight_isLoading (shown : list jsstring) st :
  st ∈ in_flight shown -> isLoading st = true.
Proof.
  unfold in_flight. rewrite elem_of_cons, list_elem_of_In, in_map_iff.
  intros [-> | [text [<- _]]]; reflexivity.
Qed.

(** C9. After an accepted submit, every conversation handed to
    [onMessagesChange] holds, right after the messages it started from,
    a user message whose text is the trimmed input: the input without a
    whitespace-only prefix and suffix, neither beginning nor ending with
    white space.  At least one such conversation is handed over. *)
Theorem user_message_is_trimmed_input p env st :
  canSendMessage p st = true ->
  (exists m,
     (changes (handleSubmit p env st).2 <> []
      /\ forall ms, ms ∈ changes (handleSubmit p env st).2 ->
                    ms !! length (messages p) = Some m
                    /\ take (length (messages p)) ms = messages p)
     /\ role m = user
     /\ content m = trim (input st))
  /\ (exists l r, input st = l ++ trim (input st) ++ r /\ blank l /\ blank r)
  /\ (forall c t, trim (input st) = c :: t -> is_white c = false)
  /\ (forall t c, trim (input st) = t ++ [c] -> is_white c = false).
Proof.
  intros Hc. split; [| apply trim_spec].
  exists (userMessage env st). split; [| done].
  destruct (handleSubmit_accepted_changes p env st Hc) as [m ->].
  split; [done |]. intros ms Hms.
  apply elem_of_cons in Hms as [-> | Hms];
    [| apply list_elem_of_singleton in Hms as ->]; rewrite <- ?app_assoc;
    (split; [by apply list_lookup_middle | by rewrite take_app_length]).
Qed.

End Conversation.

(** ** Lines of a streamed body *)

Section Lines.
Implicit Types (s a b : jsstring) (ls : list jsstring).

Lemma split_nl_nonempty s : split_nl s <> [].
Proof.
  induction s as [|c s IH]; simpl; [done |].
  destruct (c =? 10); [done |]. by destruct (split_nl s).
Qed.

(** Text without a line feed is one piece. *)
Lemma split_nl_line s : 10 ∉ s -> split_nl s = [s].
Proof.
  induction s as [|c s IH]; simpl; [done |].
  intros Hs. apply not_elem_of_cons in Hs as [Hc Hs].
  destruct (N.eqb_spec c 10) as [-> | _]; [done |]. by rewrite IH.
Qed.

(** A line, its line feed, and what follows. *)
Lemma split_nl_cons_line s b :
  10 ∉ s -> split_nl (s ++ 10 :: b) = s :: split_nl b.
Proof.
  induction s as [|c s IH]; simpl; [done |].
  intros Hs. apply not_elem_of_cons in Hs as [Hc Hs].
  destruct (N.eqb_spec c 10) as [-> | _]; [done |]. by rewrite IH.
Qed.

(** Splitting can be done piecewise: the complete lines of [a], then
    the lines of its unfinished last piece followed by [b].  This is
    what the adapter's [buffer] relies on. *)
Lemma split_nl_app a b :
  split_nl (a ++ b)
  = removelast (split_nl a) ++ split_nl (default [] (last (split_nl a)) ++ b).
Proof.
  induction a as [|c a IH]; simpl; [done |].
  pose proof (split_nl_nonempty a) as Hne. rewrite IH.
  destruct (c =? 10) eqn:Hc.
  - destruct (split_nl a) as [|l ls]; [done | reflexivity].
  - destruct (split_nl a) as [|l [|l' ls]]; [done | | reflexivity].
    simpl. by rewrite Hc.
Qed.

(** The unfinished last piece holds no line feed. *)
Lemma split_nl_last s : 10 ∉ default [] (last (split_nl s)).
Proof.
  induction s as [|c s IH]; simpl; [apply not_elem_of_nil |].
  pose proof (split_nl_nonempty s) as Hne.
  destruct (N.eqb_spec c 10) as [-> | Hc].
  - by destruct (split_nl s).
  - destruct (split_nl s) as [|l [|l' ls]]; [done | | done].
    simpl in *. by apply not_elem_of_cons.
Qed.

(** Text that ends a line leaves nothing unfinished. *)
Lemma split_nl_complete s : last (split_nl (s ++ [10])) = Some [].
Proof.
  rewrite split_nl_app.
  rewrite split_nl_cons_line by apply split_nl_last.
  by rewrite last_app.
Qed.

End Lines.

(** ** The provider adapters *)

#[global] Arguments lit : simpl never.
#[global] Arguments startsWith : simpl never.
#[global] Arguments slice_from : simpl never.
#[global] Arguments str_eqb : simpl never.

Section Adapters.
Context `{JSON Api.Completion}.
Import Api.
Implicit Types (line data buffer : jsstring) (lines : list jsstring).

(** Lines are handled one after the other until [[DONE]]. *)
Lemma forLines_cons line lines :
  forLines (line :: lines)
  = if startsWith line (lit "data: ") then
      if str_eqb (slice_from 6 line) (lit "[DONE]") then ([], true)
      else let '(ys, returned) := forLines lines in
           (tryParse (slice_from 6 line) ++ ys, returned)
    else forLines lines.
Proof. reflexivity. Qed.

Lemma forLines_app lines lines' :
  forLines (lines ++ lines')
  = if (forLines lines).2 then ((forLines lines).1, true)
    else ((forLines lines).1 ++ (forLines lines').1, (forLines lines').2).
Proof.
  induction lines as [|line lines IH].
  - simpl. by destruct (forLines lines').
  - rewrite <- app_comm_cons, !forLines_cons.
    destruct (startsWith line (lit "data: ")); [| done].
    destruct (str_eqb _ _); [done |]. rewrite IH.
    destruct (forLines lines) as [ys []]; simpl; [done |].
    by rewrite app_assoc.
Qed.

(** Starting from an unfinished line [buffer], the generator yields what
    the complete lines of the whole body yield, however the body is cut
    into reads, and ends as the reader does unless [[DONE]] came first. *)
Lemma readLoop_spec buffer (reads : list jsstring) (fin : option Thrown) :
  10 ∉ buffer ->
  readLoop buffer reads fin
  = let '(ys, returned) := forLines (removelast (split_nl (buffer ++ concat reads))) in
    mkGenerated ys (if returned then None else fin).
Proof.
  revert buffer. induction reads as [|value reads IH]; intros buffer Hb; simpl.
  - by rewrite app_nil_r, split_nl_line.
  - rewrite app_assoc, (split_nl_app (buffer ++ value)).
    rewrite removelast_app by apply split_nl_nonempty.
    rewrite forLines_app. unfold pop.
    set (lines := removelast (split_nl (buffer ++ value))).
    assert (or_else (default [] (last (split_nl (buffer ++ value)))) []
            = default [] (last (split_nl (buffer ++ value)))) as ->.
    { unfold or_else. by destruct (default [] _). }
    destruct (forLines lines) as [ys []]; simpl; [done |].
    rewrite IH by apply split_nl_last.
    by destruct (forLines _) as [ys' returned].
Qed.

(** A [data:] line whose payload yields nothing can be left out. *)
Lemma forLines_skip lines lines' data :
  str_eqb data (lit "[DONE]") = false -> tryParse data = [] ->
  forLines (lines ++ (lit "data: " ++ data) :: lines') = forLines (lines ++ lines').
Proof.
  intros Hd Ht. rewrite !forLines_app, forLines_cons.
  assert (startsWith (lit "data: " ++ data) (lit "data: ") = true) as ->
    by (apply startsWith_spec; by exists data).
  change (slice_from 6 (lit "data: " ++ data)) with data.
  rewrite Hd, Ht. by destruct (forLines lines').
Qed.


(** Leaving a complete such line out of the body changes nothing. *)
Lemma readLoop_skip (reads reads' : list jsstring) (fin : option Thrown)
    (head tail data : jsstring) :
  head = [] \/ (exists h, head = h ++ [10]) ->
  10 ∉ data -> str_eqb data (lit "[DONE]") = false -> tryParse data = [] ->
  concat reads = head ++ (lit "data: " ++ data ++ [10]) ++ tail ->
  concat reads' = head ++ tail ->
  readLoop [] reads fin = readLoop [] reads' fin.
Proof.
  intros Hh Hn Hd Ht Hr Hr'.
  assert (Hbody : (lit "data: " ++ data ++ [10]) ++ tail
                  = (lit "data: " ++ data) ++ 10 :: tail)
    by (by rewrite <- !app_assoc).
  assert (Hline : 10 ∉ lit "data: " ++ data).
  { apply not_elem_of_app. split; [| done].
    apply (bool_decide_unpack (10 ∉ lit "data: ")). vm_compute. exact I. }
  rewrite !readLoop_spec by apply not_elem_of_nil.
  rewrite !app_nil_l, Hr, Hr', Hbody, !(split_nl_app head).
  assert (default [] (last (split_nl head)) = []) as ->.
  { destruct Hh as [-> | [h ->]]; [done | by rewrite split_nl_complete]. }
  rewrite !app_nil_l, split_nl_cons_line by done.
  rewrite !removelast_app by (done || apply split_nl_nonempty).
  pose proof (split_nl_nonempty tail) as Hne.
  destruct (split_nl tail) as [|l ls] eqn:Hs; [done |].
  change (removelast ((lit "data: " ++ data) :: l :: ls))
    with ((lit "data: " ++ data) :: removelast (l :: ls)).
  by rewrite forLines_skip.
Qed.

(** Chunks with empty text can be left out of the SDK's stream. *)
Lemma forChunks_skip (chunks chunks' : list Chunk) (fin : option Thrown) :
  forChunks (chunks ++ ChunkText [] :: chunks') fin = forChunks (chunks ++ chunks') fin.
Proof.
  induction chunks as [|[text | e] chunks IH]; simpl; [done | | done].
  by rewrite IH.
Qed.

(** Over a stream of texts the Gemini generator yields the non-empty
    ones, in order. *)
Lemma forChunks_texts (texts : list jsstring) (fin : option Thrown) :
  forChunks (List.map ChunkText texts) fin
  = mkGenerated (List.filter truthy texts) fin.
Proof.
  induction texts as [|text texts IH]; simpl; [done |].
  rewrite IH. by destruct (truthy text).
Qed.

End Adapters.

(** ** What the adapters are asked, and what they send *)

Section Requests.
Context `{JSON Api.Completion}.
Import Api ChatInterface.



Lemma to_turns_lookup (newMessages : list Message) (i : nat) :
  to_turns newMessages !! i
  = (fun msg => mkTurn (role msg) (content msg)) <$> newMessages !! i.
Proof. unfold to_turns. apply list_lookup_fmap. Qed.

Lemma slice_0_m1_snoc {A} (init : list A) (x : A) : slice_0_m1 (init ++ [x]) = init.
Proof.
  unfold slice_0_m1. rewrite length_app. simpl.
  replace (length init + 1 - 1)%nat with (length init) by lia.
  by rewrite take_app_length.
Qed.

Lemma lastMessage_snoc (init : list Turn) (x : Turn) :
  lastMessage (init ++ [x]) = Some x.
Proof.
  unfold lastMessage, js_index. rewrite length_app. simpl.
  destruct (Z.ltb_spec (Z.of_nat (length init + 1) - 1) 0) as [Hlt | _]; [lia |].
  replace (Z.to_nat (Z.of_nat (length init + 1) - 1)) with (length init) by lia.
  by apply list_lookup_middle.
Qed.


End Requests.

(** ** Persistence *)

Section Persistence.
Context `{JSON T}.
Import UseLocalStorage.
Implicit Types (localStorage : Storage) (key item : jsstring) (v d : T).

(** The first-load value is the stored one when there is readable text
    under the key. *)
Lemma initial_stored localStorage key item v d :
  getItem localStorage key = Some item -> item <> [] -> JSON_parse item = Some v ->
  initial (Some localStorage) key d = v.
Proof.
  intros Hi Hne Hp. unfold initial. rewrite Hi.
  apply truthy_true in Hne. by rewrite Hne, Hp.
Qed.

(** It is the default when there is no [window], nothing under the key,
    empty text, or text that does not parse. *)
Lemma initial_default (window : option Storage) key d :
  window = None
  \/ (exists localStorage, window = Some localStorage
        /\ (getItem localStorage key = None
            \/ getItem localStorage key = Some []
            \/ exists item, getItem localStorage key = Some item
                            /\ JSON_parse item = None)) ->
  initial window key d = d.
Proof.
  unfold initial.
  intros [-> | [localStorage [-> [-> | [-> | [item [-> Hp]]]]]]]; try done.
  rewrite Hp. by destruct (truthy item).
Qed.

Lemma getItem_setItem localStorage key item :
  getItem (setItem localStorage key item) key = Some item.
Proof. apply lookup_insert_eq. Qed.

(** Writing a value and loading the page again gives the value back,
    when the value has a non-empty text that parses back to it. *)
Lemma setValue_initial localStorage key (value : T + (T -> T)) (stored : T) text d :
  let v := match value with inl v => v | inr f => f stored end in
  JSON_stringify v = Some text -> text <> [] -> JSON_parse text = Some v ->
  setValue key value stored (Some localStorage)
    = (v, Some (setItem localStorage key text))
  /\ initial (setValue key value stored (Some localStorage)).2 key d = v.
Proof.
  intros v Hs Hne Hp. unfold setValue. fold v. rewrite Hs. split; [done |].
  apply (initial_stored _ key text); [apply getItem_setItem | done | done].
Qed.

End Persistence.

Section ClearChat.
Context `{JSON Api.Completion, JSON ModelProvider, JSON jsstring, JSON (list Message)}.
Import UseLocalStorage.

Lemma lit_brackets_nonempty : lit "[]" <> [].
Proof. done. Qed.

(** C6, amended.  Clearing the chat sets the conversation to the empty
    sequence and at once writes its text, [[]], under the conversation's
    key; loading the page again over that storage reads the empty
    sequence back, whatever default is provided.  A first load returns
    the stored value when the text under the key is non-empty and
    parses, and the provided default otherwise: without a [window],
    with nothing under the key, with empty text, or with text that does
    not parse. *)
Theorem clear_chat_is_persisted (h : Page.Home) (localStorage : Storage) :
  Page.window h = Some localStorage ->
  JSON_stringify ([] : list Message) = Some (lit "[]") ->
  JSON_parse (lit "[]") = Some ([] : list Message) ->
  let h' := foldl App.chat_effect h ChatInterface.handleClearChat in
  (Page.messages h' = []
   /\ Page.window h' = Some (setItem localStorage Page.key_messages (lit "[]"))
   /\ (forall d : list Message, initial (Page.window h') Page.key_messages d = [])
   /\ Page.messages (Page.load (Page.window h')) = [])
  /\ (forall (ls : Storage) key item (v d : list Message),
        getItem ls key = Some item -> item <> [] -> JSON_parse item = Some v ->
        initial (Some ls) key d = v)
  /\ (forall (window : option Storage) key (d : list Message),
        window = None
        \/ (exists ls, window = Some ls
              /\ (getItem ls key = None
                  \/ getItem ls key = Some []
                  \/ exists item, getItem ls key = Some item /\ JSON_parse item = None)) ->
        initial window key d = d).
Proof.
  intros Hw Hs Hp h'.
  split; [| split; [apply initial_stored | apply initial_default]].
  assert (Hh' : Page.messages h' = []
                /\ Page.window h' = Some (setItem localStorage Page.key_messages (lit "[]"))).
  { unfold h'. simpl. unfold Page.setMessages, setValue. rewrite Hw, Hs. done. }
  destruct Hh' as [Hm Hw'].
  assert (Hread : forall d : list Message,
            initial (Page.window h') Page.key_messages d = []).
  { intros d. rewrite Hw'.
    apply (initial_stored _ _ (lit "[]")); [apply getItem_setItem | done | done]. }
  repeat split; try done. apply Hread.
Qed.

End ClearChat.

(** ** Message ids *)

Section Ids.

Lemma lit_inj (s s' : String.string) : lit s = lit s' -> s = s'.
Proof.
  unfold lit. intros Hs.
  rewrite <- (string_of_list_ascii_of_string s), <- (string_of_list_ascii_of_string s').
  f_equal. revert Hs.
  generalize (list_ascii_of_string s) (list_ascii_of_string s').
  induction l as [|a l IH]; intros [|a' l']; simpl; try done.
  intros Hs. injection Hs as Ha Hl. f_equal; [| by apply IH].
  by rewrite <- (ascii_N_embedding a), <- (ascii_N_embedding a'), Ha.
Qed.

Lemma to_uint_nonnil (n : N) : N.to_uint n <> Decimal.Nil.
Proof. destruct n; [done | apply DecimalPos.Unsigned.to_uint_nonnil]. Qed.

(** Distinct numbers have distinct decimal texts. *)
Lemma toString_inj (n n' : N) : toString n = toString n' -> n = n'.
Proof.
  unfold toString. intros Hs. apply lit_inj in Hs.
  apply DecimalN.Unsigned.to_uint_inj.
  pose proof (NilZero.usu _ (to_uint_nonnil n)) as Hn.
  pose proof (NilZero.usu _ (to_uint_nonnil n')) as Hn'.
  rewrite Hs in Hn. congruence.
Qed.

(** Within one submit the two messages appended have different ids,
    as long as the clock has not gone back since the submit began. *)
Lemma ids_differ_within_a_submit `{JSON Api.Completion}
    (p : ChatInterface.Props) (env : ChatInterface.Env) (st : ChatInterface.State) :
  ChatInterface.canSendMessage p st = true ->
  ChatInterface.now_user env <= ChatInterface.now_assistant env ->
  ChatInterface.now_user env <= ChatInterface.now_error env ->
  exists m m',
    ChatInterface.committed (ChatInterface.messages p) (ChatInterface.handleSubmit p env st).2
    = ChatInterface.messages p ++ [m; m']
    /\ id m <> id m'.
Proof.
  intros Hc Ha He.
  destruct (ChatInterface.streamGenerator p env
              (ChatInterface.messages p ++ [ChatInterface.userMessage env st]))
    as [fragments [error |]] eqn:Hg; unfold ChatInterface.committed.
  - destruct (handleSubmit_threw p env st fragments error Hc Hg) as [_ ->].
    do 2 eexists. split; [simpl; by rewrite <- app_assoc |].
    simpl. intros Hid. apply toString_inj in Hid. lia.
  - destruct (handleSubmit_returned p env st fragments Hc Hg) as [_ ->].
    do 2 eexists. split; [simpl; by rewrite <- app_assoc |].
    simpl. intros Hid. apply toString_inj in Hid. lia.
Qed.

(** C8 fails on the code: ids are clock readings, so two messages of
    one conversation can carry the same id.  A submit that fails at once
    while the clock reads 1000 appends a user message with id [1000]
    and an error message with id [1001]; a submit one millisecond later
    appends a user message with id [1001] again. *)
Theorem message_ids_can_collide :
  List.map id (Page.messages (App.home Sample.after_resubmit))
  = [toString 1000; toString 1001; toString 1001; toString 1002]
  /\ (exists i j m m',
        i <> j
        /\ Page.messages (App.home Sample.after_resubmit) !! i = Some m
        /\ Page.messages (App.home Sample.after_resubmit) !! j = Some m'
        /\ m <> m'
        /\ id m = id m').
Proof.
  split; [by vm_compute |].
  exists 1%nat, 2%nat. do 2 eexists.
  split; [done |]. split; [by vm_compute |]. split; [by vm_compute |].
  split; [| by vm_compute]. intros Hm. by vm_compute in Hm.
Qed.

End Ids.

(** ** The claims on sample runs *)

Module Runs.
Import Sample ChatInterface.

(** C6 as first stated does not hold: text stored under the key does
    not prevent the fall-back.  With the empty text under the
    conversation's key, a stored value exists and yet a first load
    returns whatever default it is given. *)
Lemma stored_text_can_still_fall_back :
  let localStorage : UseLocalStorage.Storage := {[ Page.key_messages := [] ]} in
  UseLocalStorage.getItem localStorage Page.key_messages = Some []
  /\ @UseLocalStorage.initial _ conversations (Some localStorage) Page.key_messages []
     = []
  /\ @UseLocalStorage.initial _ conversations (Some localStorage) Page.key_messages
       [greeting]
     = [greeting].
Proof. by vm_compute. Qed.

Lemma finalized_text_is_concatenation_witness :
  committed [] (@handleSubmit completions openai_props hi_there typed_hello).2
  = [ {| id := lit "1000"; role := user; content := lit "hello"; timestamp := 1000 |};
      {| id := lit "1001"; role := assistant; content := lit "Hi there!";
         timestamp := 1000 |} ].
Proof.
  apply (@finalized_text_is_concatenation completions openai_props hi_there typed_hello
           [lit "Hi"; lit " there"; lit "!"]); reflexivity.
Defined.

(** The same on the Gemini branch. *)
Example finalized_text_gemini :
  committed [] (@handleSubmit completions gemini_props hi_there typed_hello).2
  = [ {| id := lit "1000"; role := user; content := lit "hello"; timestamp := 1000 |};
      {| id := lit "1001"; role := assistant; content := lit "Hi there!";
         timestamp := 1000 |} ].
Proof. reflexivity. Qed.

Lemma failing_adapter_appends_one_error_message_witness :
  changes (@handleSubmit completions openai_props (offline_at 1000) typed_hello).2
  = [ [ {| id := lit "1000"; role := user; content := lit "hello"; timestamp := 1000 |} ];
      [ {| id := lit "1000"; role := user; content := lit "hello"; timestamp := 1000 |};
        {| id := lit "1001"; role := assistant;
           content := lit "Error: Failed to fetch"; timestamp := 1000 |} ] ]
  /\ (@handleSubmit completions openai_props (offline_at 1000) typed_hello).1
     = mkState [] false false [].
Proof.
  destruct (@failing_adapter_appends_one_error_message completions openai_props
              (offline_at 1000) typed_hello [] offline eq_refl eq_refl)
    as [Hchanges [_ Hidle]].
  split; [exact Hchanges | exact Hidle].
Defined.

Lemma rejected_submit_does_nothing_witness :
  @handleSubmit completions openai_props hi_there (mkState (lit "   ") false false [])
  = (mkState (lit "   ") false false [], []).
Proof.
  apply (@rejected_submit_does_nothing completions openai_props hi_there
           (mkState (lit "   ") false false [])).
  left. repeat constructor.
Defined.

Lemma validateApiKey_gates_save_witness :
  validateApiKey gemini (lit "           ") = false.
Proof.
  apply (proj1 (@validateApiKey_gates_save completions providers keys conversations)).
  repeat constructor.
Defined.

Lemma clear_chat_is_persisted_witness :
  let h := @Page.setMessages conversations [greeting]
             (@Page.load providers keys conversations (Some ∅)) in
  let h' := foldl (@App.chat_effect conversations) h handleClearChat in
  Page.messages h = [greeting]
  /\ Page.messages h' = []
  /\ Page.window h' = Some {[ Page.key_messages := lit "[]" ]}
  /\ Page.messages (@Page.load providers keys conversations (Page.window h')) = [].
Proof.
  intros h h'.
  destruct (@clear_chat_is_persisted providers keys conversations h ∅
              eq_refl eq_refl eq_refl) as [[Hm [Hw [_ Hl]]] _].
  split; [reflexivity |]. split; [exact Hm |]. split; [| exact Hl].
  unfold h'. rewrite Hw. unfold UseLocalStorage.setItem. by rewrite insert_empty.
Defined.

Lemma user_message_is_trimmed_input_witness :
  exists m,
    (changes (@handleSubmit completions openai_props hi_there typed_hello).2 <> []
     /\ forall ms, ms ∈ changes (@handleSubmit completions openai_props hi_there typed_hello).2 ->
                   ms !! 0%nat = Some m /\ take 0 ms = [])
    /\ role m = user
    /\ content m = lit "hello".
Proof.
  exact (proj1 (@user_message_is_trimmed_input completions openai_props hi_there
                  typed_hello eq_refl)).
Defined.


End Runs.

(** * Further properties *)

(** ** The OpenAI stream as a reader of lines *)

Section OpenAIStream.
Context `{JSON Api.Completion}.
Import Api.
Implicit Types (line data head tail : jsstring) (reads : list jsstring).

(** After text that ends a line, splitting starts afresh. *)
Lemma split_nl_after_complete head s :
  head = [] \/ (exists h, head = h ++ [10]) ->
  split_nl (head ++ s) = removelast (split_nl head) ++ split_nl s.
Proof.
  intros Hh. rewrite split_nl_app.
  assert (default [] (last (split_nl head)) = []) as ->; [| done].
  destruct Hh as [-> | [h ->]]; [done | by rewrite split_nl_complete].
Qed.

(** The generator over a whole body given as complete lines [lines]
    followed by an unfinished [rest]. *)
Lemma readLoop_lines reads (fin : option Thrown) lines rest :
  split_nl (concat reads) = lines ++ [rest] ->
  readLoop [] reads fin
  = mkGenerated (forLines lines).1 (if (forLines lines).2 then None else fin).
Proof.
  intros Hs. rewrite readLoop_spec by apply not_elem_of_nil.
  rewrite app_nil_l, Hs, removelast_last. by destruct (forLines lines).
Qed.

Lemma forLines_other line lines :
  startsWith line (lit "data: ") = false -> forLines (line :: lines) = forLines lines.
Proof. intros Hl. by rewrite forLines_cons, Hl. Qed.

Lemma forLines_done lines :
  forLines (lit "data: [DONE]" :: lines) = ([], true).
Proof. reflexivity. Qed.

Lemma forLines_data data lines :
  data <> lit "[DONE]" ->
  forLines ((lit "data: " ++ data) :: lines)
  = (tryParse data ++ (forLines lines).1, (forLines lines).2).
Proof.
  intros Hd. rewrite forLines_cons.
  assert (startsWith (lit "data: " ++ data) (lit "data: ") = true) as ->
    by (apply startsWith_spec; by exists data).
  change (slice_from 6 (lit "data: " ++ data)) with data.
  destruct (str_eqb data (lit "[DONE]")) eqn:He.
  - by apply str_eqb_eq in He.
  - by destruct (forLines lines).
Qed.

(** X1. The fragments and the ending depend on the body only, not on
    how the network cut it into reads. *)
Theorem openai_stream_ignores_read_boundaries
    (request : OpenAIRequest) (apiKey : jsstring) reads reads' (fin : option Thrown) :
  concat reads = concat reads' ->
  callOpenAIStream (fun _ => ResponseBody reads fin) request apiKey
  = callOpenAIStream (fun _ => ResponseBody reads' fin) request apiKey.
Proof.
  intros Hr. unfold callOpenAIStream.
  rewrite !readLoop_spec by apply not_elem_of_nil. by rewrite Hr.
Qed.

(** X2. A [data: [DONE]] line ends the generator normally: whatever
    follows it in the body is not read, and a failure of a later read is
    not raised. *)
Theorem done_line_ends_the_stream
    (request : OpenAIRequest) (apiKey : jsstring) reads (fin : option Thrown) head tail :
  head = [] \/ (exists h, head = h ++ [10]) ->
  concat reads = head ++ lit "data: [DONE]" ++ [10] ++ tail ->
  callOpenAIStream (fun _ => ResponseBody reads fin) request apiKey
  = callOpenAIStream (fun _ => ResponseBody [head] None) request apiKey.
Proof.
  intros Hh Hr. unfold callOpenAIStream.
  pose proof (split_nl_nonempty tail) as Hne.
  destruct (exists_last Hne) as [lines [rest Ht]].
  rewrite (readLoop_lines reads fin
             (removelast (split_nl head) ++ lit "data: [DONE]" :: lines) rest).
  - rewrite (readLoop_lines [head] None (removelast (split_nl head)) []).
    + rewrite forLines_app, forLines_done.
      destruct (forLines (removelast (split_nl head))) as [ys []]; simpl; [done |].
      by rewrite app_nil_r.
    + simpl concat. rewrite app_nil_r.
      rewrite <- (app_nil_r head) at 1. by rewrite split_nl_after_complete.
  - rewrite Hr, split_nl_after_complete by done.
    change ([10] ++ tail) with (10 :: tail).
    rewrite (split_nl_cons_line (lit "data: [DONE]") tail).
    + by rewrite Ht, <- app_assoc.
    + apply (bool_decide_unpack (10 ∉ lit "data: [DONE]")). vm_compute. exact I.
Qed.

(** X3. Text after the last line feed of the body is never handled: a
    final line that is not terminated yields nothing, whatever it holds. *)
Theorem unterminated_line_is_dropped
    (request : OpenAIRequest) (apiKey : jsstring) reads (fin : option Thrown)
    head (partial : jsstring) :
  head = [] \/ (exists h, head = h ++ [10]) ->
  10 ∉ partial ->
  concat reads = head ++ partial ->
  callOpenAIStream (fun _ => ResponseBody reads fin) request apiKey
  = callOpenAIStream (fun _ => ResponseBody [head] fin) request apiKey.
Proof.
  intros Hh Hp Hr. unfold callOpenAIStream.
  rewrite (readLoop_lines reads fin (removelast (split_nl head)) partial).
  - rewrite (readLoop_lines [head] fin (removelast (split_nl head)) []); [done |].
    simpl concat. rewrite app_nil_r.
    rewrite <- (app_nil_r head) at 1. by rewrite split_nl_after_complete.
  - rewrite Hr, split_nl_after_complete by done.
    by rewrite (split_nl_line partial) by done.
Qed.

(** X4. A complete line that does not begin with [data: ] (a blank
    line, a comment, another field) is passed over: the generator goes
    on as if the line had not been sent. *)
Theorem other_lines_are_ignored
    (request : OpenAIRequest) (apiKey : jsstring) reads reads' (fin : option Thrown)
    head tail line :
  head = [] \/ (exists h, head = h ++ [10]) ->
  10 ∉ line ->
  startsWith line (lit "data: ") = false ->
  concat reads = head ++ line ++ [10] ++ tail ->
  concat reads' = head ++ tail ->
  callOpenAIStream (fun _ => ResponseBody reads fin) request apiKey
  = callOpenAIStream (fun _ => ResponseBody reads' fin) request apiKey.
Proof.
  intros Hh Hl Hs Hr Hr'. unfold callOpenAIStream.
  pose proof (split_nl_nonempty tail) as Hne.
  destruct (exists_last Hne) as [lines [rest Ht]].
  rewrite (readLoop_lines reads fin (removelast (split_nl head) ++ line :: lines) rest).
  - rewrite (readLoop_lines reads' fin (removelast (split_nl head) ++ lines) rest).
    + rewrite !forLines_app, forLines_other by done. done.
    + rewrite Hr', split_nl_after_complete by done. by rewrite Ht, app_assoc.
  - rewrite Hr, split_nl_after_complete by done.
    change ([10] ++ tail) with (10 :: tail).
    rewrite (split_nl_cons_line line tail) by done.
    by rewrite Ht, <- app_assoc.
Qed.

End OpenAIStream.

(** ** What the adapters yield *)

Section Yields.
Context `{JSON Api.Completion}.
Import Api.

(** One event as the server sends it: the line, then a blank line. *)
Lemma split_nl_event (data s : jsstring) :
  10 ∉ data ->
  split_nl ((lit "data: " ++ data ++ [10; 10]) ++ s)
  = (lit "data: " ++ data) :: [] :: split_nl s.
Proof.
  intros Hd.
  replace ((lit "data: " ++ data ++ [10; 10]) ++ s)
    with ((lit "data: " ++ data) ++ 10 :: 10 :: s)
    by (by rewrite <- !app_assoc).
  rewrite split_nl_cons_line; [done |].
  apply not_elem_of_app. split; [| done].
  apply (bool_decide_unpack (10 ∉ lit "data: ")). vm_compute. exact I.
Qed.

Lemma tryParse_content (data : jsstring) (content : JsonValue) (parsed : Completion) :
  JSON_parse data = Some parsed ->
  choices_0_delta_content parsed = Some (Some content) ->
  tryParse data = if json_truthy content then [json_text content] else [].
Proof. unfold tryParse. by intros -> ->. Qed.

(** X5. A body of well-formed events, each carrying a string as its
    content, makes the generator yield exactly the non-empty contents,
    in order, and end as the reader does. *)
Theorem events_yield_their_contents
    (request : OpenAIRequest) (apiKey : jsstring) (reads : list jsstring)
    (fin : option Thrown) (events : list (jsstring * jsstring)) :
  Forall (fun e => (10 ∉ fst e) /\ fst e <> lit "[DONE]"
                   /\ exists parsed, JSON_parse (fst e) = Some parsed
                        /\ choices_0_delta_content parsed
                           = Some (Some (JsonString (snd e))))
    events ->
  concat reads = concat (List.map (fun e => lit "data: " ++ e.1 ++ [10; 10]) events) ->
  callOpenAIStream (fun _ => ResponseBody reads fin) request apiKey
  = mkGenerated (List.filter truthy (List.map snd events)) fin.
Proof.
  intros He Hr. unfold callOpenAIStream.
  assert (Hs : split_nl (concat reads)
               = flat_map (fun e => [lit "data: " ++ e.1; []]) events ++ [[]]).
  { rewrite Hr. clear Hr.
    induction He as [|[data c] events [Hd _] _ IH]; [done |].
    cbn [List.map concat flat_map fst]. by rewrite split_nl_event, IH. }
  rewrite (readLoop_lines reads fin _ _ Hs).
  assert (Hf : forLines (flat_map (fun e => [lit "data: " ++ e.1; []]) events)
               = (List.filter truthy (List.map snd events), false)).
  { clear Hs Hr.
    induction He as [|[data c] events [Hd [Hn [parsed [Hp Hc]]]] _ IH]; [done |].
    cbn [flat_map fst snd app List.map].
    rewrite forLines_data by done.
    rewrite (forLines_other [] _ eq_refl), IH.
    rewrite (tryParse_content data (JsonString c) parsed Hp Hc).
    cbn [fst snd List.filter json_truthy json_text].
    by destruct (truthy c). }
  by rewrite Hf.
Qed.

Lemma gemini_call_nonempty (messages : list Turn) (apiKey : jsstring) :
  messages <> [] -> exists call, gemini_call messages apiKey = Some call.
Proof.
  intros Hne. destruct (exists_last Hne) as [init [m ->]].
  unfold gemini_call. rewrite lastMessage_snoc. eauto.
Qed.

Lemma forChunks_texts_then_throw (texts : list jsstring) (e : Thrown)
    (rest : list Chunk) (fin : option Thrown) :
  forChunks (List.map ChunkText texts ++ ChunkThrows e :: rest) fin
  = mkGenerated (List.filter truthy texts) (Some e).
Proof.
  induction texts as [|text texts IH]; simpl; [done |].
  rewrite IH. by destruct (truthy text).
Qed.

(** X7. For a non-empty message list, the Gemini generator yields the
    non-empty chunk texts in order and ends as the SDK's stream does;
    when [chunk.text()] throws, it stops there with that exception,
    having yielded the non-empty texts before it, and no later chunk
    is read. *)
Theorem gemini_stream_yields_nonempty_texts
    (messages : list Turn) (apiKey : jsstring) (texts : list jsstring)
    (fin : option Thrown) (e : Thrown) (rest : list Chunk) :
  messages <> [] ->
  callGeminiStream (fun _ => SdkStream (List.map ChunkText texts) fin) messages apiKey
  = mkGenerated (List.filter truthy texts) fin
  /\ callGeminiStream
       (fun _ => SdkStream (List.map ChunkText texts ++ ChunkThrows e :: rest) fin)
       messages apiKey
     = mkGenerated (List.filter truthy texts) (Some e).
Proof.
  intros Hne. unfold callGeminiStream.
  destruct (gemini_call_nonempty messages apiKey Hne) as [call ->].
  split; [apply forChunks_texts | apply forChunks_texts_then_throw].
Qed.

End Yields.

(** ** One submit, seen from outside *)

Section Submit.
Context `{JSON Api.Completion}.
Import ChatInterface.
Implicit Types (p : Props) (env : Env) (st : State).

(** The effects of an accepted submit, in order. *)
Lemma handleSubmit_effects p env st (fragments : list jsstring) (e : option Thrown) :
  canSendMessage p st = true ->
  streamGenerator p env (messages p ++ [userMessage env st]) = mkGenerated fragments e ->
  exists call final,
    adapter_calls [call] = [call]
    /\ (handleSubmit p env st).2
       = OnMessagesChange (messages p ++ [userMessage env st])
         :: call :: (forAwait [] fragments).2 ++ [OnMessagesChange final].
Proof.
  intros Hc Hg. unfold handleSubmit, streamGenerator in *.
  rewrite guard_canSendMessage, Hc. simpl negb. cbv iota.
  destruct (modelProvider p); cbv zeta; rewrite Hg; simpl yielded; simpl ending;
    destruct (forAwait [] fragments) as [fullResponse shown]; destruct e;
    cbn [fst snd]; do 2 eexists;
    (split; [| rewrite ?app_nil_r, <- ?app_assoc; reflexivity]); reflexivity.
Qed.



(** X10. The Send button is enabled exactly when a submit has an
    effect: [canSendMessage] holds if and only if [handleSubmit] does
    something. *)
Theorem send_enabled_iff_submit_accepted p env st :
  canSendMessage p st = true <-> (handleSubmit p env st).2 <> [].
Proof.
  split.
  - intros Hc.
    destruct (streamGenerator p env (messages p ++ [userMessage env st]))
      as [fragments e] eqn:Hg.
    by destruct (handleSubmit_effects p env st fragments e Hc Hg)
      as [call [final [_ ->]]].
  - intros Hes. destruct (canSendMessage p st) eqn:Hc; [done |].
    destruct Hes. unfold handleSubmit. by rewrite guard_canSendMessage, Hc.
Qed.


End Submit.

(** ** The page over sequences of actions *)

Section Page.
Context `{JSON Api.Completion, JSON ModelProvider, JSON jsstring, JSON (list Message)}.
Import App.

Lemma setMessages_fields (v : list Message) (h : Page.Home) :
  Page.messages (Page.setMessages v h) = v
  /\ Page.modelProvider (Page.setMessages v h) = Page.modelProvider h
  /\ Page.openaiApiKey (Page.setMessages v h) = Page.openaiApiKey h
  /\ Page.geminiApiKey (Page.setMessages v h) = Page.geminiApiKey h.
Proof.
  unfold Page.setMessages, UseLocalStorage.setValue.
  destruct (Page.window h); [destruct (JSON_stringify v) |]; done.
Qed.

Lemma last_cons_default {A} (x d : A) (l : list A) :
  List.last (x :: l) d = List.last l x.
Proof.
  revert x d. induction l as [|y l IH]; intros x d; [done |].
  change (List.last (x :: y :: l) d) with (List.last (y :: l) d).
  by rewrite !IH.
Qed.

(** The page after the effects of a chat handler: the conversation is
    the last one handed over, the settings are untouched. *)
Lemma foldl_chat_effect_fields (es : list ChatInterface.Effect) (h : Page.Home) :
  Page.messages (foldl chat_effect h es) = ChatInterface.committed (Page.messages h) es
  /\ Page.modelProvider (foldl chat_effect h es) = Page.modelProvider h
  /\ Page.openaiApiKey (foldl chat_effect h es) = Page.openaiApiKey h
  /\ Page.geminiApiKey (foldl chat_effect h es) = Page.geminiApiKey h.
Proof.
  revert h. induction es as [|e es IH]; intros h; [done |].
  simpl foldl. destruct (IH (chat_effect h e)) as [-> [-> [-> ->]]].
  destruct e as [ms | | |]; try done.
  simpl chat_effect.
  destruct (setMessages_fields ms h) as [-> [-> [-> ->]]].
  split; [| done]. unfold ChatInterface.committed.
  change (ChatInterface.changes (ChatInterface.OnMessagesChange ms :: es))
    with (ms :: ChatInterface.changes es).
  by rewrite last_cons_default.
Qed.

(** What one submit does to a conversation. *)
Lemma handleSubmit_committed (p : ChatInterface.Props) (env : ChatInterface.Env)
    (st : ChatInterface.State) :
  (ChatInterface.canSendMessage p st = false
   /\ ChatInterface.handleSubmit p env st = (st, []))
  \/ (ChatInterface.canSendMessage p st = true
      /\ exists n,
           (n = ChatInterface.now_assistant env \/ n = ChatInterface.now_error env)
           /\ exists text t,
                ChatInterface.committed (ChatInterface.messages p)
                  (ChatInterface.handleSubmit p env st).2
                = ChatInterface.messages p
                  ++ [ ChatInterface.userMessage env st;
                       {| id := toString (n + 1); role := assistant;
                          content := text; timestamp := t |} ]).
Proof.
  destruct (ChatInterface.canSendMessage p st) eqn:Hc.
  - right. split; [done |].
    destruct (ChatInterface.streamGenerator p env
                (ChatInterface.messages p ++ [ChatInterface.userMessage env st]))
      as [fragments [error |]] eqn:Hg; unfold ChatInterface.committed.
    + destruct (handleSubmit_threw p env st fragments error Hc Hg) as [_ ->].
      eexists. split; [by right |]. do 2 eexists. simpl. by rewrite <- app_assoc.
    + destruct (handleSubmit_returned p env st fragments Hc Hg) as [_ ->].
      eexists. split; [by left |]. do 2 eexists. simpl. by rewrite <- app_assoc.
  - left. split; [done |]. unfold ChatInterface.handleSubmit.
    by rewrite guard_canSendMessage, Hc.
Qed.

Lemma key_effects_fields (set : jsstring -> Page.Home -> Page.Home)
    (es : list ApiKeyManager.Effect) (h : Page.Home) :
  (forall k h0, Page.messages (set k h0) = Page.messages h0
                /\ Page.modelProvider (set k h0) = Page.modelProvider h0) ->
  Page.messages (foldl (key_effect set) h es) = Page.messages h
  /\ Page.modelProvider (foldl (key_effect set) h es) = Page.modelProvider h.
Proof.
  intros Hset. revert h. induction es as [|[k] es IH]; intros h; [done |].
  simpl. destruct (IH (set k h)) as [-> ->]. apply Hset.
Qed.

Lemma setCurrentApiKey_fields (h : Page.Home) (k : jsstring) (h0 : Page.Home) :
  Page.messages (Page.setCurrentApiKey h k h0) = Page.messages h0
  /\ Page.modelProvider (Page.setCurrentApiKey h k h0) = Page.modelProvider h0.
Proof.
  unfold Page.setCurrentApiKey, Page.setOpenaiApiKey, Page.setGeminiApiKey,
    UseLocalStorage.setValue.
  destruct (Page.modelProvider h), (Page.window h0);
    try destruct (JSON_stringify k); done.
Qed.

(** The conversation after one action, by cases. *)
Lemma step_messages (a : App) (act : Action) :
  Page.messages (home (step a act)) = Page.messages (home a)
  \/ (act = ClearChat /\ Page.messages (home (step a act)) = [])
  \/ (exists env n text t,
        act = Submit env
        /\ (n = ChatInterface.now_assistant env \/ n = ChatInterface.now_error env)
        /\ ChatInterface.canSendMessage (chat_props (home a)) (chat a) = true
        /\ Page.messages (home (step a act))
           = Page.messages (home a)
             ++ [ ChatInterface.userMessage env (chat a);
                  {| id := toString (n + 1); role := assistant;
                     content := text; timestamp := t |} ]).
Proof.
  destruct act as [m | text | | | text | env |]; simpl.
  - left. unfold Page.setModelProvider, UseLocalStorage.setValue.
    destruct (Page.window (home a)); [destruct (JSON_stringify m) |]; done.
  - by left.
  - left. destruct (negb _); [done |].
    destruct (ApiKeyManager.handleSave _ _) as [k es]. simpl.
    apply key_effects_fields. intros. apply setCurrentApiKey_fields.
  - left. destruct (bool_decide _); [| done]. simpl.
    apply setCurrentApiKey_fields.
  - left. by destruct (_ || _).
  - destruct (handleSubmit_committed (chat_props (home a)) env (chat a))
      as [[Hc Hs] | [Hc [n [Hn [text [t Hs]]]]]].
    + left. by rewrite Hs.
    + right. right. exists env, n, text, t. split; [done |]. split; [done |].
      split; [done |].
      destruct (ChatInterface.handleSubmit _ _ _) as [c es]. simpl in *.
      destruct (foldl_chat_effect_fields es (home a)) as [-> _]. exact Hs.
  - destruct (bool_decide _); [| by left].
    right. left. split; [done |]. simpl. apply setMessages_fields.
Qed.


End Page.

(** ** Ids, requests and credentials over sequences of actions *)

Section Routing.
Context `{JSON Api.Completion, JSON ModelProvider, JSON jsstring, JSON (list Message)}.
Import App.

(** The ids of [ms] are the decimal texts of distinct numbers up to
    [used]. *)
Lemma ids_spaced_step (used : N) (a : App) (act : Action) (ns : list N) :
  List.map id (Page.messages (home a)) = List.map toString ns ->
  NoDup ns -> Forall (fun n => n <= used) ns ->
  clock_spaced used [act] ->
  exists used' ns',
    List.map id (Page.messages (home (step a act))) = List.map toString ns'
    /\ NoDup ns' /\ Forall (fun n => n <= used') ns'
    /\ forall rest, clock_spaced used (act :: rest) -> clock_spaced used' rest.
Proof.
  intros Hids Hnd Hle Hclock.
  destruct (step_messages a act)
    as [Hs | [[-> Hs] | [env [n [text [t [-> [Hn [_ Hs]]]]]]]]].
  - destruct act as [m | text | | | text | env |].
    1-5,7: exists used, ns; rewrite Hs; by repeat split.
    destruct Hclock as [Hu [Ha [He _]]].
    exists (N.max (ChatInterface.now_assistant env) (ChatInterface.now_error env) + 1), ns.
    rewrite Hs. split; [done |]. split; [done |]. split.
    + eapply Forall_impl; [exact Hle |]. simpl. intros m Hm. lia.
    + intros rest [_ [_ [_ Hrest]]]. exact Hrest.
  - exists used, []. rewrite Hs. repeat split; try constructor. by intros rest Hrest.
  - destruct Hclock as [Hu [Ha [He _]]].
    exists (N.max (ChatInterface.now_assistant env) (ChatInterface.now_error env) + 1),
      (ns ++ [ChatInterface.now_user env; n + 1]).
    rewrite Hs, !map_app, Hids. split; [done |].
    assert (Hlt : ChatInterface.now_user env < n + 1) by (destruct Hn as [-> | ->]; lia).
    split; [| split].
    + apply NoDup_app. split; [done |]. split.
      * intros m Hm Hin. rewrite Forall_forall in Hle. apply Hle in Hm.
        apply elem_of_cons in Hin as [-> | Hin]; [lia |].
        apply list_elem_of_singleton in Hin as ->. lia.
      * apply NoDup_cons. split; [| apply NoDup_singleton].
        intros Hin. apply list_elem_of_singleton in Hin. lia.
    + apply Forall_app. split.
      * eapply Forall_impl; [exact Hle |]. simpl. intros m Hm. lia.
      * repeat constructor; destruct Hn as [-> | ->]; lia.
    + intros rest [_ [_ [_ Hrest]]]. exact Hrest.
Qed.

Lemma clock_spaced_head (used : N) (act : Action) (rest : list Action) :
  clock_spaced used (act :: rest) -> clock_spaced used [act].
Proof. destruct act; simpl; tauto. Qed.

Lemma ids_spaced_run (used : N) (a : App) (acts : list Action) (ns : list N) :
  List.map id (Page.messages (home a)) = List.map toString ns ->
  NoDup ns -> Forall (fun n => n <= used) ns ->
  clock_spaced used acts ->
  NoDup (List.map id (Page.messages (home (run a acts)))).
Proof.
  revert used a ns. induction acts as [|act acts IH]; intros used a ns Hids Hnd Hle Hclock.
  - simpl. rewrite Hids.
    assert (Inj eq eq toString) by (intros x y; apply toString_inj).
    by apply (NoDup_fmap_2 toString).
  - destruct (ids_spaced_step used a act ns Hids Hnd Hle
                (clock_spaced_head _ _ _ Hclock))
      as [used' [ns' [Hids' [Hnd' [Hle' Hnext]]]]].
    apply (IH used' (step a act) ns'); auto.
Qed.

(** X14. Over actions each run to its end before the next: when the
    first clock reading of every submit is positive and larger than
    every reading of the earlier submits plus one (a reading in
    [catch] counting whether or not it is taken), and no later reading
    of a submit is below its first, the ids of a conversation that
    started empty are pairwise different. *)
Theorem ids_unique_under_spaced_clock (a : App) (acts : list Action) :
  Page.messages (home a) = [] ->
  clock_spaced 0 acts ->
  NoDup (List.map id (Page.messages (home (run a acts)))).
Proof.
  intros Ha Hclock.
  apply (ids_spaced_run 0 a acts []); [by rewrite Ha | constructor | constructor | done].
Qed.

Lemma chat_props_fields (h : Page.Home) :
  ChatInterface.apiKey (chat_props h)
  = match Page.modelProvider h with
    | openai => Page.openaiApiKey h
    | gemini => Page.geminiApiKey h
    end.
Proof. reflexivity. Qed.

Lemma exchanges_lookup (ms : list Message) (i : nat) (m : Message) :
  exchanges ms = true -> ms !! i = Some m ->
  role m = if Nat.even i then user else assistant.
Proof.
  revert i. induction ms as [ms IH] using (induction_ltof1 _ (@length Message)).
  intros i Hms Hi. destruct ms as [|u [|r ms]]; [done | done |].
  simpl in Hms. apply andb_true_iff in Hms as [Hroles Hms].
  apply andb_true_iff in Hroles as [Hu Hr].
  apply bool_decide_eq_true in Hu, Hr.
  destruct i as [|[|i]]; simpl in Hi.
  - by injection Hi as <-.
  - by injection Hi as <-.
  - change (Nat.even (S (S i))) with (Nat.even i).
    apply (IH ms); [unfold ltof; simpl; lia | done | done].
Qed.

End Routing.

(** ** Settings and their storage *)

Section Settings.
Context `{JSON Api.Completion, JSON ModelProvider, JSON jsstring, JSON (list Message)}.
Import App UseLocalStorage.

(** A write under one key is not seen by a first load under another. *)
Lemma initial_setValue_other {T U} `{JSON T, JSON U} (key key' : jsstring)
    (value : T + (T -> T)) (stored : T) (window : option Storage) (d : U) :
  key <> key' ->
  initial (setValue key value stored window).2 key' d = initial window key' d.
Proof.
  intros Hne. unfold setValue.
  destruct window as [localStorage |]; [| done].
  destruct (JSON_stringify _) as [text |]; [| done].
  unfold initial, getItem, setItem. simpl. by rewrite lookup_insert_ne.
Qed.

(** X17. What is written with [setValue] is what a later first load
    under the same key returns, when the value has a non-empty text that
    parses back to it; and the write changes nothing a first load
    returns under any other key. *)
Theorem write_then_reload {T U} `{JSON T, JSON U} (localStorage : Storage)
    (key key' : jsstring) (value : T + (T -> T)) (stored : T) (text : jsstring)
    (d : T) (d' : U) :
  let v := match value with inl v => v | inr f => f stored end in
  JSON_stringify v = Some text -> text <> [] -> JSON_parse text = Some v ->
  key <> key' ->
  (setValue key value stored (Some localStorage)).1 = v
  /\ initial (setValue key value stored (Some localStorage)).2 key d = v
  /\ initial (setValue key value stored (Some localStorage)).2 key' d'
     = initial (Some localStorage) key' d'.
Proof.
  intros v Hs Hne Hp Hk. split; [| split].
  - unfold setValue. fold v. by rewrite Hs.
  - unfold setValue. fold v. rewrite Hs. simpl.
    apply (initial_stored _ key text); [apply getItem_setItem | done | done].
  - by apply initial_setValue_other.
Qed.

(** X18. The four persisted values are stored apart: setting the
    conversation, either key or the provider changes nothing of what a
    reload of the page gives for the other three. *)
Theorem settings_are_stored_apart (h : Page.Home) :
  (forall v,
     let h' := Page.load (Page.window (Page.setMessages v h)) in
     let h0 := Page.load (Page.window h) in
     Page.modelProvider h' = Page.modelProvider h0
     /\ Page.openaiApiKey h' = Page.openaiApiKey h0
     /\ Page.geminiApiKey h' = Page.geminiApiKey h0)
  /\ (forall v,
        let h' := Page.load (Page.window (Page.setOpenaiApiKey v h)) in
        let h0 := Page.load (Page.window h) in
        Page.modelProvider h' = Page.modelProvider h0
        /\ Page.geminiApiKey h' = Page.geminiApiKey h0
        /\ Page.messages h' = Page.messages h0)
  /\ (forall v,
        let h' := Page.load (Page.window (Page.setGeminiApiKey v h)) in
        let h0 := Page.load (Page.window h) in
        Page.modelProvider h' = Page.modelProvider h0
        /\ Page.openaiApiKey h' = Page.openaiApiKey h0
        /\ Page.messages h' = Page.messages h0)
  /\ (forall v,
        let h' := Page.load (Page.window (Page.setModelProvider v h)) in
        let h0 := Page.load (Page.window h) in
        Page.openaiApiKey h' = Page.openaiApiKey h0
        /\ Page.geminiApiKey h' = Page.geminiApiKey h0
        /\ Page.messages h' = Page.messages h0).
Proof.
  repeat split; intros;
    unfold Page.setMessages, Page.setOpenaiApiKey, Page.setGeminiApiKey,
      Page.setModelProvider;
    match goal with
    | |- context [setValue ?k ?v ?s ?w] =>
        destruct (setValue k v s w) as [v' w'] eqn:Hset;
        assert (w' = (setValue k v s w).2) as -> by (by rewrite Hset)
    end;
    simpl; by apply initial_setValue_other.
Qed.

(** X19. Without a key for the selected provider nothing can be sent:
    a submit leaves the whole page as it is, and so does typing into the
    message field.  Clearing the key always leads to that state. *)
Theorem no_key_no_send (a : App) :
  (Page.currentApiKey (home a) = [] ->
   forall env text, step a (Submit env) = a /\ step a (TypeInput text) = a)
  /\ Page.currentApiKey (home (step a ClearKey)) = [].
Proof.
  split.
  - intros Hk env text. destruct a as [h c k]. simpl in *. split.
    + assert (ChatInterface.handleSubmit (chat_props h) env c = (c, [])) as ->; [| done].
      unfold ChatInterface.handleSubmit. simpl. rewrite Hk. simpl.
      by rewrite orb_true_r.
    + by rewrite Hk.
  - simpl. destruct (bool_decide _) eqn:Hb.
    + simpl. apply setCurrentApiKey_current.
    + apply bool_decide_eq_false in Hb.
      destruct (Page.currentApiKey (home a)); [done | simpl in Hb; lia].
Qed.

Lemma setCurrentApiKey_other (h : Page.Home) (k : jsstring) :
  match Page.modelProvider h with
  | openai => Page.geminiApiKey (Page.setCurrentApiKey h k h) = Page.geminiApiKey h
  | gemini => Page.openaiApiKey (Page.setCurrentApiKey h k h) = Page.openaiApiKey h
  end.
Proof.
  unfold Page.setCurrentApiKey, Page.setOpenaiApiKey, Page.setGeminiApiKey, setValue.
  destruct (Page.modelProvider h) eqn:Hm, (Page.window h);
    try destruct (JSON_stringify k); simpl; done.
Qed.

(** X20. Typing, saving or clearing a key concerns the selected
    provider only: the conversation, the selection and the key of the
    other provider stay as they are. *)
Theorem key_actions_touch_only_the_selected_provider (a : App) (act : Action) :
  (exists text, act = TypeKey text) \/ act = SaveKey \/ act = ClearKey ->
  Page.messages (home (step a act)) = Page.messages (home a)
  /\ Page.modelProvider (home (step a act)) = Page.modelProvider (home a)
  /\ match Page.modelProvider (home a) with
     | openai => Page.geminiApiKey (home (step a act)) = Page.geminiApiKey (home a)
     | gemini => Page.openaiApiKey (home (step a act)) = Page.openaiApiKey (home a)
     end.
Proof.
  intros [[text ->] | [-> | ->]]; simpl.
  - by destruct (Page.modelProvider (home a)).
  - destruct (negb _); [by destruct (Page.modelProvider (home a)) |].
    unfold ApiKeyManager.handleSave.
    destruct (negb (validateApiKey _ _)); simpl;
      [by destruct (Page.modelProvider (home a)) |].
    split; [apply setCurrentApiKey_fields |]. split; [apply setCurrentApiKey_fields |].
    apply setCurrentApiKey_other.
  - destruct (bool_decide _); [| by destruct (Page.modelProvider (home a))].
    simpl.
    split; [apply setCurrentApiKey_fields |]. split; [apply setCurrentApiKey_fields |].
    apply setCurrentApiKey_other.
Qed.

Lemma setModelProvider_fields (m : ModelProvider) (h : Page.Home) :
  Page.modelProvider (Page.setModelProvider m h) = m
  /\ Page.openaiApiKey (Page.setModelProvider m h) = Page.openaiApiKey h
  /\ Page.geminiApiKey (Page.setModelProvider m h) = Page.geminiApiKey h
  /\ Page.messages (Page.setModelProvider m h) = Page.messages h.
Proof.
  unfold Page.setModelProvider, setValue.
  destruct (Page.window h); [destruct (JSON_stringify m) |]; done.
Qed.

(** X21. Selecting a provider keeps both keys and the conversation, and
    makes that provider's key the one in use; the text in the key field
    is kept too, so that saving right after a switch stores, for the
    newly selected provider, the text typed before the switch whenever
    it passes that provider's check. *)
Theorem provider_switch_keeps_keys_and_typed_text (a : App) (m : ModelProvider) :
  let a' := step a (SelectModel m) in
  Page.modelProvider (home a') = m
  /\ Page.openaiApiKey (home a') = Page.openaiApiKey (home a)
  /\ Page.geminiApiKey (home a') = Page.geminiApiKey (home a)
  /\ Page.messages (home a') = Page.messages (home a)
  /\ Page.currentApiKey (home a')
     = match m with
       | openai => Page.openaiApiKey (home a)
       | gemini => Page.geminiApiKey (home a)
       end
  /\ keyForm a' = keyForm a
  /\ (validateApiKey m (ApiKeyManager.inputValue (keyForm a)) = true ->
      Page.currentApiKey (home (step a' SaveKey))
      = ApiKeyManager.inputValue (keyForm a)).
Proof.
  intros a'.
  destruct (setModelProvider_fields m (home a)) as [Hm [Ho [Hg Hms]]].
  assert (Ha' : home a' = Page.setModelProvider m (home a)) by done.
  rewrite Ha'. repeat split; try done.
  - unfold Page.currentApiKey. rewrite Hm, Ho, Hg. done.
  - intros Hv. change (keyForm a) with (keyForm a').
    apply step_SaveKey_accepted. by rewrite Ha', Hm.
Qed.

End Settings.

(** ** Chunks and lines that yield nothing *)

Section Skipped.
Context `{JSON Api.Completion}.
Import Api.



End Skipped.

(** ** What reaches the remote ends *)

Section Sent.
Context `{JSON Api.Completion}.
Import Api ChatInterface.

Lemma to_turns_snoc (ms : list Message) (m : Message) :
  to_turns (ms ++ [m])
  = List.map (fun msg => mkTurn (role msg) (content msg)) ms
    ++ [mkTurn (role m) (content m)].
Proof. unfold to_turns. by rewrite map_app. Qed.

(** The call the Gemini adapter makes for a list with a last entry. *)
Lemma gemini_call_snoc (init : list Turn) (last : Turn) (apiKey : jsstring) :
  gemini_call (init ++ [last]) apiKey
  = Some {| call_apiKey := apiKey;
            call_model := lit "gemini-1.5-flash-latest";
            call_temperature := (7 # 10)%Q;
            call_maxOutputTokens := 10000;
            history :=
              List.map (fun msg =>
                          {| content_role := match turn_role msg with
                                             | user => role_user
                                             | assistant => role_model
                                             end;
                             parts := [turn_content msg] |}) init;
            latest := turn_content last |}.
Proof.
  unfold gemini_call, to_history. by rewrite lastMessage_snoc, slice_0_m1_snoc.
Qed.

(** A submit reads its environment through the clock and through the
    generator of the selected adapter only. *)
Lemma handleSubmit_by_generator (p : Props) (st : State)
    (now_user date_user now_assistant date_assistant now_error date_error : N)
    (fetch fetch' : HttpRequest -> FetchOutcome)
    (sdk sdk' : GeminiCall -> SdkOutcome) :
  let env := mkEnv now_user date_user now_assistant date_assistant now_error
               date_error fetch sdk in
  let env' := mkEnv now_user date_user now_assistant date_assistant now_error
                date_error fetch' sdk' in
  streamGenerator p env (ChatInterface.messages p ++ [userMessage env st])
  = streamGenerator p env' (ChatInterface.messages p ++ [userMessage env st]) ->
  handleSubmit p env st = handleSubmit p env' st.
Proof.
  intros env env'. unfold handleSubmit, streamGenerator.
  destruct (_ || _); [done |].
  change (userMessage env' st) with (userMessage env st).
  destruct (modelProvider p); cbv zeta; intros ->; reflexivity.
Qed.

(** C7. Given the same list of [{ role, content }] entries, the two
    adapters differ in the shape of what they send.  The OpenAI
    generator makes one request, whose body holds the whole list as it
    is; the Gemini generator, for a list with a last entry, makes one
    call whose history is every entry but the last, with [user] kept,
    [assistant] turned into [model] and the content as the one text
    part, and whose latest turn is the content of the last entry.
    Nothing else of the remote end is consulted: it decides the
    outcome by its answer to that request alone.  The loop hands
    either adapter the conversation followed by the new user message,
    each entry with its role and content. *)
Theorem adapters_send_flat_list_or_history_and_latest
    (request : OpenAIRequest) (init : list Turn) (last : Turn) (apiKey : jsstring) :
  let flat (turns : list Turn) (key : jsstring) :=
    {| url := lit "https://api.openai.com/v1/chat/completions";
       method := lit "POST";
       headers := [ (lit "Content-Type", lit "application/json");
                    (lit "Authorization", lit "Bearer " ++ key) ];
       body := {| body_model := lit "gpt-4o-mini";
                  body_messages := turns;
                  body_temperature := (7 # 10)%Q;
                  body_max_tokens := 10000;
                  body_stream := true |} |} in
  let split (earlier : list Turn) (final : Turn) (key : jsstring) :=
    {| call_apiKey := key;
       call_model := lit "gemini-1.5-flash-latest";
       call_temperature := (7 # 10)%Q;
       call_maxOutputTokens := 10000;
       history :=
         List.map (fun msg =>
                     {| content_role := match turn_role msg with
                                        | user => role_user
                                        | assistant => role_model
                                        end;
                        parts := [turn_content msg] |}) earlier;
       latest := turn_content final |} in
  (forall fetch fetch' : HttpRequest -> FetchOutcome,
     fetch (flat (Api.messages request) apiKey)
     = fetch' (flat (Api.messages request) apiKey) ->
     callOpenAIStream fetch request apiKey = callOpenAIStream fetch' request apiKey)
  /\ (forall (fetch : HttpRequest -> FetchOutcome) (e : Thrown),
        fetch (flat (Api.messages request) apiKey) = FetchRejects e ->
        callOpenAIStream fetch request apiKey = mkGenerated [] (Some e))
  /\ (forall sdk sdk' : GeminiCall -> SdkOutcome,
        sdk (split init last apiKey) = sdk' (split init last apiKey) ->
        callGeminiStream sdk (init ++ [last]) apiKey
        = callGeminiStream sdk' (init ++ [last]) apiKey)
  /\ (forall (sdk : GeminiCall -> SdkOutcome) (e : Thrown),
        sdk (split init last apiKey) = SendRejects e ->
        callGeminiStream sdk (init ++ [last]) apiKey = mkGenerated [] (Some e))
  /\ (forall (p : Props) (st : State)
        (now_user date_user now_assistant date_assistant now_error date_error : N)
        (fetch fetch' : HttpRequest -> FetchOutcome)
        (sdk sdk' : GeminiCall -> SdkOutcome),
        canSendMessage p st = true ->
        let earlier :=
          List.map (fun msg => mkTurn (role msg) (content msg))
            (ChatInterface.messages p) in
        let final := mkTurn user (trim (input st)) in
        match modelProvider p with
        | openai =>
            fetch (flat (earlier ++ [final]) (ChatInterface.apiKey p))
            = fetch' (flat (earlier ++ [final]) (ChatInterface.apiKey p))
        | gemini =>
            sdk (split earlier final (ChatInterface.apiKey p))
            = sdk' (split earlier final (ChatInterface.apiKey p))
        end ->
        handleSubmit p
          (mkEnv now_user date_user now_assistant date_assistant now_error
             date_error fetch sdk) st
        = handleSubmit p
            (mkEnv now_user date_user now_assistant date_assistant now_error
               date_error fetch' sdk') st).
Proof.
  intros flat split.
  split; [| split; [| split; [| split]]].
  - intros fetch fetch' Hf. unfold callOpenAIStream.
    change (openai_http_request request apiKey) with (flat (Api.messages request) apiKey).
    by rewrite Hf.
  - intros fetch e Hf. unfold callOpenAIStream.
    change (openai_http_request request apiKey) with (flat (Api.messages request) apiKey).
    by rewrite Hf.
  - intros sdk sdk' Hs. unfold callGeminiStream. rewrite gemini_call_snoc.
    fold (split init last apiKey). by rewrite Hs.
  - intros sdk e Hs. unfold callGeminiStream. rewrite gemini_call_snoc.
    fold (split init last apiKey). by rewrite Hs.
  - intros p st now_user date_user now_assistant date_assistant now_error date_error
      fetch fetch' sdk sdk' Hc earlier final Hsame.
    apply handleSubmit_by_generator. unfold streamGenerator.
    rewrite to_turns_snoc. fold earlier.
    change (mkTurn (role (userMessage _ st)) (content (userMessage _ st))) with final.
    destruct (modelProvider p).
    + unfold callOpenAIStream.
      change (openai_http_request (mkOpenAIRequest (lit "gpt-4o-mini") (earlier ++ [final]))
                (ChatInterface.apiKey p))
        with (flat (earlier ++ [final]) (ChatInterface.apiKey p)).
      cbn [ChatInterface.fetch]. by rewrite Hsame.
    + unfold callGeminiStream. rewrite gemini_call_snoc.
      fold (split earlier final (ChatInterface.apiKey p)).
      cbn [ChatInterface.sendMessageStream]. by rewrite Hsame.
Qed.

End Sent.

(** ** The page while a reply streams *)

Section Streaming.
Context `{JSON Api.Completion, JSON ModelProvider, JSON jsstring, JSON (list Message)}.

Lemma foldl_chat_effect_changes (es : list ChatInterface.Effect) (h : Page.Home) :
  foldl App.chat_effect h es
  = foldl (fun h ms => Page.setMessages ms h) h (ChatInterface.changes es).
Proof.
  revert h. induction es as [|e es IH]; intros h; [done |].
  destruct e; simpl; apply IH.
Qed.

Lemma step_Do_cases (act : App.Action) :
  (exists env, act = App.Submit env)
  \/ ((forall env, act <> App.Submit env)
      /\ forall pg, Live.step pg (Live.Do act)
                    = Live.mkPage (App.step (Live.app pg) act) (Live.suspended pg)).
Proof. destruct act; [right | right | right | right | right | left | right]; eauto. Qed.

(** What the user can do while the component is loading leaves the
    component and the suspended handler alone; at most the conversation
    is cleared. *)
Lemma step_Do_loading (pg : Live.Page) (act : App.Action) :
  ChatInterface.isLoading (App.chat (Live.app pg)) = true ->
  App.chat (Live.app (Live.step pg (Live.Do act))) = App.chat (Live.app pg)
  /\ Live.suspended (Live.step pg (Live.Do act)) = Live.suspended pg
  /\ (Page.messages (App.home (Live.app (Live.step pg (Live.Do act))))
      = Page.messages (App.home (Live.app pg))
      \/ Page.messages (App.home (Live.app (Live.step pg (Live.Do act)))) = []).
Proof.
  intros Hl.
  destruct (step_Do_cases act) as [[env ->] | [Hact Hstep]].
  - simpl. unfold Live.submit. rewrite Hl, orb_true_r. auto.
  - rewrite Hstep. simpl. split; [| split; [done |]].
    + destruct act as [m | text | | | text | env |]; simpl; try done.
      * destruct (negb _); [done |]. by destruct (ApiKeyManager.handleSave _ _).
      * by destruct (bool_decide _).
      * by rewrite Hl, orb_true_r.
      * by destruct (Hact env).
      * by destruct (bool_decide _).
    + destruct (step_messages (Live.app pg) act)
        as [Hs | [[_ Hs] | [env [n [text [t [-> _]]]]]]]; [by left | by right |].
      by destruct (Hact env).
Qed.

Lemma running_Do (pg : Live.Page) (input : jsstring) (s : Live.Suspended)
    (acts : list App.Action) :
  Live.running_with pg input s ->
  Live.running_with (Live.run pg (List.map Live.Do acts)) input s.
Proof.
  revert pg. induction acts as [|act acts IH]; intros pg Hr; [done |].
  change (Live.run pg (List.map Live.Do (act :: acts)))
    with (Live.run (Live.step pg (Live.Do act)) (List.map Live.Do acts)).
  apply IH. destruct Hr as [Hs Hc].
  destruct (step_Do_loading pg act) as [Hc' [Hs' _]]; [by rewrite Hc |].
  unfold Live.running_with. by rewrite Hs', Hc'.
Qed.

(** The handler receives one more fragment. *)
Lemma running_Resume (pg : Live.Page) (input : jsstring) (s : Live.Suspended)
    (chunk : jsstring) (rest : list jsstring) :
  Live.running_with pg input s -> Live.coming s = chunk :: rest ->
  Live.step pg Live.Resume
  = Live.mkPage
      (App.mkApp (App.home (Live.app pg))
         (ChatInterface.mkState input true true (Live.fullResponse s ++ chunk))
         (App.keyForm (Live.app pg)))
      (Some (Live.mkSuspended (Live.newMessages s) (Live.assistantMessageId s)
               (Live.fullResponse s ++ chunk) rest (Live.coming_end s)
               (Live.date_assistant s) (Live.now_error s) (Live.date_error s))).
Proof.
  intros [Hs Hc] Hcoming. simpl. unfold Live.resume. by rewrite Hs, Hcoming, Hc.
Qed.

(** The generator is done: the reply, or the error, is committed on top
    of [newMessages]. *)
Lemma running_finish (pg : Live.Page) (input : jsstring) (s : Live.Suspended) :
  Live.running_with pg input s -> Live.coming s = [] ->
  Live.step pg Live.Resume
  = Live.mkPage
      (App.mkApp
         (Page.setMessages
            (Live.newMessages s
             ++ [ match Live.coming_end s with
                  | None =>
                      {| id := Live.assistantMessageId s;
                         role := assistant;
                         content := Live.fullResponse s;
                         timestamp := Live.date_assistant s |}
                  | Some error =>
                      {| id := toString (Live.now_error s + 1);
                         role := assistant;
                         content := ChatInterface.error_content error;
                         timestamp := Live.date_error s |}
                  end ])
            (App.home (Live.app pg)))
         (ChatInterface.mkState input false false [])
         (App.keyForm (Live.app pg)))
      None.
Proof.
  intros [Hs Hc] Hcoming. simpl. unfold Live.resume. by rewrite Hs, Hcoming, Hc.
Qed.

Lemma run_app (pg : Live.Page) (acts acts' : list Live.Action) :
  Live.run pg (acts ++ acts') = Live.run (Live.run pg acts) acts'.
Proof. apply foldl_app. Qed.

(** After [between] has been gone through, as many fragments have been
    received as it has segments. *)
Lemma running_interleave (between : list (list App.Action)) (pg : Live.Page)
    (input : jsstring) (s : Live.Suspended) :
  Live.running_with pg input s ->
  (length between <= length (Live.coming s))%nat ->
  Live.running_with (Live.run pg (Live.interleave between)) input
    (Live.mkSuspended (Live.newMessages s) (Live.assistantMessageId s)
       (Live.fullResponse s ++ concat (take (length between) (Live.coming s)))
       (drop (length between) (Live.coming s)) (Live.coming_end s)
       (Live.date_assistant s) (Live.now_error s) (Live.date_error s)).
Proof.
  revert pg s. induction between as [|acts between IH]; intros pg s Hr Hlen.
  - destruct s. simpl in *. by rewrite app_nil_r.
  - destruct (Live.coming s) as [|chunk rest] eqn:Hcoming; [simpl in Hlen; lia |].
    change (Live.interleave (acts :: between))
      with ((List.map Live.Do acts ++ [Live.Resume]) ++ Live.interleave between).
    rewrite !run_app.
    pose proof (running_Do pg input s acts Hr) as Hr'.
    change (Live.run ?pg0 [Live.Resume]) with (Live.step pg0 Live.Resume).
    rewrite (running_Resume _ input s chunk rest Hr' Hcoming).
    set (pg' := Live.mkPage _ _).
    set (s' := Live.mkSuspended (Live.newMessages s) (Live.assistantMessageId s)
                 (Live.fullResponse s ++ chunk) rest (Live.coming_end s)
                 (Live.date_assistant s) (Live.now_error s) (Live.date_error s)).
    assert (Hr'' : Live.running_with pg' input s') by done.
    specialize (IH pg' s' Hr''). simpl in IH, Hlen.
    simpl. rewrite <- app_assoc in IH. apply IH. lia.
Qed.

(** The page right after an accepted submit. *)
Lemma submit_accepted (pg : Live.Page) (env : ChatInterface.Env) :
  ChatInterface.canSendMessage (App.chat_props (App.home (Live.app pg)))
    (App.chat (Live.app pg)) = true ->
  let a := Live.app pg in
  let newMessages :=
    Page.messages (App.home a) ++ [ChatInterface.userMessage env (App.chat a)] in
  let g := ChatInterface.streamGenerator (App.chat_props (App.home a)) env newMessages in
  Live.step pg (Live.Do (App.Submit env))
  = Live.mkPage
      (App.mkApp (Page.setMessages newMessages (App.home a))
         (ChatInterface.mkState [] true true []) (App.keyForm a))
      (Some (Live.mkSuspended newMessages
               (toString (ChatInterface.now_assistant env + 1)) []
               (yielded g) (ending g)
               (ChatInterface.date_assistant env) (ChatInterface.now_error env)
               (ChatInterface.date_error env))).
Proof.
  intros Hc a newMessages g. simpl. unfold Live.submit.
  by rewrite guard_canSendMessage, Hc.
Qed.

(** X9. While a reply streams, the page shows the text received so
    far: nothing right after the submit, then the fragments yielded so
    far, joined in order, whatever the user does between two
    fragments; the page stays loading all the while.  When the
    generator ends the text shown is emptied and loading is over. *)
Theorem streaming_message_is_the_text_so_far
    (pg : Live.Page) (env : ChatInterface.Env) (between : list (list App.Action)) :
  let a := Live.app pg in
  let g :=
    ChatInterface.streamGenerator (App.chat_props (App.home a)) env
      (Page.messages (App.home a) ++ [ChatInterface.userMessage env (App.chat a)]) in
  let pg' := Live.run pg (Live.Do (App.Submit env) :: Live.interleave between) in
  ChatInterface.canSendMessage (App.chat_props (App.home a)) (App.chat a) = true ->
  ((length between <= length (yielded g))%nat ->
   App.chat (Live.app pg')
   = ChatInterface.mkState [] true true (concat (take (length between) (yielded g))))
  /\ (length between = S (length (yielded g)) ->
      App.chat (Live.app pg') = ChatInterface.mkState [] false false []).
Proof.
  intros a g pg' Hc. subst pg'.
  change (Live.run pg (Live.Do (App.Submit env) :: ?acts))
    with (Live.run (Live.step pg (Live.Do (App.Submit env))) acts).
  rewrite (submit_accepted pg env Hc). fold a. fold g.
  set (s0 := Live.mkSuspended _ _ _ _ _ _ _ _).
  set (pg0 := Live.mkPage _ _).
  assert (Hr : Live.running_with pg0 [] s0) by done.
  split.
  - intros Hlen. by destruct (running_interleave between pg0 [] s0 Hr Hlen) as [_ ->].
  - intros Hlen.
    destruct (exists_last (l := between)) as [between' [acts ->]];
      [by destruct between |].
    rewrite length_app in Hlen. simpl in Hlen.
    assert (Hlen' : length between' = length (yielded g)) by lia.
    unfold Live.interleave. rewrite map_app, concat_app. simpl.
    rewrite app_nil_r, app_assoc, !run_app.
    fold (Live.interleave between').
    assert (Hr' : Live.running_with (Live.run pg0 (Live.interleave between')) []
                    (Live.mkSuspended (Live.newMessages s0) (Live.assistantMessageId s0)
                       (Live.fullResponse s0
                        ++ concat (take (length between') (Live.coming s0)))
                       (drop (length between') (Live.coming s0)) (Live.coming_end s0)
                       (Live.date_assistant s0) (Live.now_error s0) (Live.date_error s0)))
      by (apply running_interleave; [done | simpl; lia]).
    apply (running_Do _ _ _ acts) in Hr'.
    change (Live.run ?pg1 [Live.Resume]) with (Live.step pg1 Live.Resume).
    rewrite (running_finish _ _ _ Hr'); [done |].
    simpl. rewrite Hlen'. apply drop_all.
Qed.

(** X12. When the generator ends, the conversation becomes the one
    the submit started from, followed by the user message and by the
    reply (the fragments joined) or the error message, whatever
    happened to the conversation meanwhile: messages cleared with
    Clear Chat while the reply streamed are back. *)
Theorem stream_end_writes_the_conversation_of_the_submit
    (pg : Live.Page) (env : ChatInterface.Env) (between : list (list App.Action)) :
  let a := Live.app pg in
  let newMessages :=
    Page.messages (App.home a) ++ [ChatInterface.userMessage env (App.chat a)] in
  let g := ChatInterface.streamGenerator (App.chat_props (App.home a)) env newMessages in
  let pg' := Live.run pg (Live.Do (App.Submit env) :: Live.interleave between) in
  ChatInterface.canSendMessage (App.chat_props (App.home a)) (App.chat a) = true ->
  length between = S (length (yielded g)) ->
  Live.suspended pg' = None
  /\ Page.messages (App.home (Live.app pg'))
     = newMessages
       ++ [ match ending g with
            | None =>
                {| id := toString (ChatInterface.now_assistant env + 1);
                   role := assistant;
                   content := concat (yielded g);
                   timestamp := ChatInterface.date_assistant env |}
            | Some error =>
                {| id := toString (ChatInterface.now_error env + 1);
                   role := assistant;
                   content := ChatInterface.error_content error;
                   timestamp := ChatInterface.date_error env |}
            end ].
Proof.
  intros a newMessages g pg' Hc Hlen. subst pg'.
  change (Live.run pg (Live.Do (App.Submit env) :: ?acts))
    with (Live.run (Live.step pg (Live.Do (App.Submit env))) acts).
  rewrite (submit_accepted pg env Hc). fold a. fold newMessages. fold g.
  set (s0 := Live.mkSuspended _ _ _ _ _ _ _ _).
  set (pg0 := Live.mkPage _ _).
  assert (Hr : Live.running_with pg0 [] s0) by done.
  destruct (exists_last (l := between)) as [between' [acts ->]];
    [by destruct between |].
  rewrite length_app in Hlen. simpl in Hlen.
  assert (Hlen' : length between' = length (yielded g)) by lia.
  unfold Live.interleave. rewrite map_app, concat_app. simpl.
  rewrite app_nil_r, app_assoc, !run_app.
  fold (Live.interleave between').
  assert (Hr' : Live.running_with (Live.run pg0 (Live.interleave between')) []
                  (Live.mkSuspended (Live.newMessages s0) (Live.assistantMessageId s0)
                     (Live.fullResponse s0
                      ++ concat (take (length between') (Live.coming s0)))
                     (drop (length between') (Live.coming s0)) (Live.coming_end s0)
                     (Live.date_assistant s0) (Live.now_error s0) (Live.date_error s0)))
    by (apply running_interleave; [done | simpl; lia]).
  apply (running_Do _ _ _ acts) in Hr'.
  change (Live.run ?pg1 [Live.Resume]) with (Live.step pg1 Live.Resume).
  rewrite (running_finish _ _ _ Hr') by (simpl; rewrite Hlen'; apply drop_all).
  split; [done |]. simpl.
  destruct (setMessages_fields
              (newMessages
               ++ [ match ending g with
                    | None =>
                        {| id := toString (ChatInterface.now_assistant env + 1);
                           role := assistant;
                           content := concat (take (length between') (yielded g));
                           timestamp := ChatInterface.date_assistant env |}
                    | Some error =>
                        {| id := toString (ChatInterface.now_error env + 1);
                           role := assistant;
                           content := ChatInterface.error_content error;
                           timestamp := ChatInterface.date_error env |}
                    end ])
              (App.home (Live.app (Live.run (Live.run pg0 (Live.interleave between'))
                                     (List.map Live.Do acts))))) as [-> _].
  by rewrite Hlen', firstn_all.
Qed.


(** With nothing done in between, only the text shown changes. *)
Lemma run_Resumes (n : nat) (pg : Live.Page) (input : jsstring) (s : Live.Suspended) :
  Live.running_with pg input s ->
  (n <= length (Live.coming s))%nat ->
  Live.run pg (replicate n Live.Resume)
  = Live.mkPage
      (App.mkApp (App.home (Live.app pg))
         (ChatInterface.mkState input true true
            (Live.fullResponse s ++ concat (take n (Live.coming s))))
         (App.keyForm (Live.app pg)))
      (Some (Live.mkSuspended (Live.newMessages s) (Live.assistantMessageId s)
               (Live.fullResponse s ++ concat (take n (Live.coming s)))
               (drop n (Live.coming s)) (Live.coming_end s)
               (Live.date_assistant s) (Live.now_error s) (Live.date_error s))).
Proof.
  revert pg s. induction n as [|n IH]; intros pg s Hr Hlen.
  - destruct pg as [[h c k] susp], s. destruct Hr as [Hs Hc]. simpl in *.
    subst. by rewrite app_nil_r.
  - destruct (Live.coming s) as [|chunk rest] eqn:Hcoming; [simpl in Hlen; lia |].
    change (Live.run pg (replicate (S n) Live.Resume))
      with (Live.run (Live.step pg Live.Resume) (replicate n Live.Resume)).
    rewrite (running_Resume pg input s chunk rest Hr Hcoming).
    rewrite (IH _ (Live.mkSuspended (Live.newMessages s) (Live.assistantMessageId s)
                     (Live.fullResponse s ++ chunk) rest (Live.coming_end s)
                     (Live.date_assistant s) (Live.now_error s) (Live.date_error s)));
      [| done | simpl in *; lia].
    simpl. by rewrite <- !app_assoc.
Qed.

(** X23. A submit during which the user does nothing is one step of
    [App]: run to the end of its stream, it leaves the page that the
    atomic [Submit] gives. *)
Theorem uninterrupted_submit_is_one_step (pg : Live.Page) (env : ChatInterface.Env) :
  let a := Live.app pg in
  let g :=
    ChatInterface.streamGenerator (App.chat_props (App.home a)) env
      (Page.messages (App.home a) ++ [ChatInterface.userMessage env (App.chat a)]) in
  Live.suspended pg = None ->
  Live.run pg (Live.Do (App.Submit env) :: replicate (S (length (yielded g))) Live.Resume)
  = Live.mkPage (App.step a (App.Submit env)) None.
Proof.
  intros a g Hs.
  change (Live.run pg (Live.Do (App.Submit env) :: ?acts))
    with (Live.run (Live.step pg (Live.Do (App.Submit env))) acts).
  destruct (ChatInterface.canSendMessage (App.chat_props (App.home a)) (App.chat a))
    eqn:Hc.
  - rewrite (submit_accepted pg env Hc). fold a. fold g.
    set (newMessages :=
           Page.messages (App.home a) ++ [ChatInterface.userMessage env (App.chat a)]).
    set (s0 := Live.mkSuspended _ _ _ _ _ _ _ _).
    set (pg0 := Live.mkPage _ _).
    assert (Hr : Live.running_with pg0 [] s0) by done.
    rewrite replicate_S_end, run_app.
    rewrite (run_Resumes _ pg0 [] s0 Hr) by done.
    change (Live.run ?pg1 [Live.Resume]) with (Live.step pg1 Live.Resume).
    erewrite running_finish; [| done | apply drop_all].
    simpl. rewrite firstn_all.
    destruct g as [fragments e] eqn:Hg. simpl.
    destruct (ChatInterface.handleSubmit (App.chat_props (App.home a)) env (App.chat a))
      as [c es] eqn:Hh.
    rewrite foldl_chat_effect_changes.
    destruct e as [error |].
    + destruct (handleSubmit_threw _ env _ fragments error Hc Hg) as [Hst Hch].
      rewrite Hh in Hst, Hch. simpl in Hst, Hch. by rewrite Hst, Hch.
    + destruct (handleSubmit_returned _ env _ fragments Hc Hg) as [Hst Hch].
      rewrite Hh in Hst, Hch. simpl in Hst, Hch. by rewrite Hst, Hch.
  - assert (Hsub : Live.step pg (Live.Do (App.Submit env)) = pg).
    { simpl. unfold Live.submit. fold a. by rewrite guard_canSendMessage, Hc. }
    rewrite Hsub.
    assert (Hidle : forall n, Live.run pg (replicate n Live.Resume) = pg).
    { induction n as [|n IHn]; [done |].
      simpl. unfold Live.resume at 1. by rewrite Hs. }
    rewrite Hidle. simpl. unfold ChatInterface.handleSubmit.
    rewrite guard_canSendMessage. fold a. rewrite Hc. simpl.
    destruct pg as [[h c k] susp]. simpl in *. by subst.
Qed.

End Streaming.

(** ** Ids while replies stream *)

Section StreamingIds.
Context `{JSON Api.Completion, JSON ModelProvider, JSON jsstring, JSON (list Message)}.

Lemma ids_below_weaken (used used' : N) (pg : Live.Page) :
  used <= used' -> Live.ids_below used pg -> Live.ids_below used' pg.
Proof.
  intros Hle [ns [Hnd [Hns Hshape]]]. exists ns. split; [done |]. split; [| done].
  eapply Forall_impl; [exact Hns |]. simpl. intros n Hn. lia.
Qed.

Lemma clock_spaced_other (used : N) (act : App.Action) (rest : list App.Action) :
  (forall env, act <> App.Submit env) ->
  clock_spaced used (act :: rest) = clock_spaced used rest.
Proof. intros Hact. destruct act; try reflexivity. by destruct (Hact env). Qed.

(** One step keeps the ids apart, and tells what the clock has used. *)
Lemma ids_below_step (used : N) (pg : Live.Page) (act : Live.Action) :
  Live.ids_below used pg ->
  clock_spaced used (Live.user_actions [act]) ->
  exists used',
    Live.ids_below used' (Live.step pg act)
    /\ forall rest, clock_spaced used (Live.user_actions (act :: rest)) ->
                    clock_spaced used' (Live.user_actions rest).
Proof.
  intros Hinv Hclock. destruct act as [act |].
  - destruct (step_Do_cases act) as [[env ->] | [Hact Hstep]].
    + (* a submit *)
      destruct Hclock as [Hu [Ha [He _]]].
      exists (N.max (ChatInterface.now_assistant env) (ChatInterface.now_error env) + 1).
      split; [| by intros rest [_ [_ [_ Hrest]]]].
      simpl. unfold Live.submit.
      destruct (_ || _) eqn:Hguard; [apply (ids_below_weaken used); [lia | done] |].
      destruct Hinv as [ns [Hnd [Hns Hshape]]].
      destruct (Live.suspended pg) as [s |] eqn:Hs.
      { destruct Hshape as [Hl _]. by rewrite Hl, orb_true_r in Hguard. }
      set (g := ChatInterface.streamGenerator _ _ _).
      set (n := match ending g with
                | None => ChatInterface.now_assistant env
                | Some _ => ChatInterface.now_error env
                end).
      assert (Hn : ChatInterface.now_user env <= n) by (unfold n; by destruct (ending g)).
      exists (ns ++ [ChatInterface.now_user env; n + 1]).
      split; [| split].
      * apply NoDup_app. split; [done |]. split.
        -- intros m Hm Hin. rewrite Forall_forall in Hns. apply Hns in Hm.
           apply elem_of_cons in Hin as [-> | Hin]; [lia |].
           apply list_elem_of_singleton in Hin as ->. lia.
        -- apply NoDup_cons. split; [| apply NoDup_singleton].
           intros Hin. apply list_elem_of_singleton in Hin. lia.
      * apply Forall_app. split.
        -- eapply Forall_impl; [exact Hns |]. simpl. intros m Hm. lia.
        -- repeat constructor; unfold n; destruct (ending g); lia.
      * simpl. split; [done |]. split; [right; apply setMessages_fields |].
        rewrite !map_app, Hshape, <- app_assoc. simpl.
        unfold Live.pending_id, n. simpl. by destruct (ending g).
    + (* any other action of the user *)
      exists used. split.
      * rewrite Hstep. destruct Hinv as [ns [Hnd [Hns Hshape]]].
        destruct (Live.suspended pg) as [s |] eqn:Hs.
        -- destruct Hshape as [Hl [Hms Hids]].
           destruct (step_Do_loading pg act Hl) as [Hc' [_ Hms']].
           rewrite Hstep in Hc', Hms'. simpl in Hc', Hms'.
           exists ns. split; [done |]. split; [done |]. simpl.
           rewrite Hc'. split; [done |]. split; [| done].
           destruct Hms' as [-> | ->]; [done | by left].
        -- destruct (step_messages (Live.app pg) act)
             as [Hm | [[_ Hm] | [env [n [text [t [-> _]]]]]]].
           ++ exists ns. simpl. by rewrite Hm.
           ++ exists []. simpl. rewrite Hm. repeat split; constructor.
           ++ by destruct (Hact env).
      * intros rest.
        change (Live.user_actions (Live.Do act :: rest))
          with (act :: Live.user_actions rest).
        by rewrite clock_spaced_other.
  - (* the handler goes on *)
    exists used. split; [| done].
    simpl. unfold Live.resume.
    destruct Hinv as [ns [Hnd [Hns Hshape]]].
    destruct (Live.suspended pg) as [s |] eqn:Hs;
      [| exists ns; by rewrite Hs].
    destruct Hshape as [Hl [Hms Hids]].
    exists ns. split; [done |]. split; [done |].
    destruct (Live.coming s) as [|chunk rest]; simpl.
    + match goal with
      | |- context [Page.setMessages ?v ?h] =>
          destruct (setMessages_fields v h) as [-> _]
      end.
      rewrite map_app, <- Hids. unfold Live.pending_id.
      by destruct (Live.coming_end s).
    + by rewrite Hl.
Qed.

Lemma ids_below_run (acts : list Live.Action) (used : N) (pg : Live.Page) :
  Live.ids_below used pg ->
  clock_spaced used (Live.user_actions acts) ->
  exists used', Live.ids_below used' (Live.run pg acts).
Proof.
  revert used pg. induction acts as [|act acts IH]; intros used pg Hinv Hclock;
    [by exists used |].
  destruct (ids_below_step used pg act Hinv) as [used' [Hinv' Hnext]].
  - destruct act as [act |]; [| done]. simpl in *.
    by apply (clock_spaced_head used act (Live.user_actions acts)).
  - apply (IH used' (Live.step pg act) Hinv'). by apply Hnext.
Qed.

(** X24. The same over any run of the page, the steps of a running
    submit and the user's actions interleaved in any way: when the
    first clock reading of every submit is positive and larger than
    every reading of the earlier submits plus one (a reading in
    [catch] counting whether or not it is taken), and no later reading
    of a submit is below its first, the ids of a conversation that
    started empty are pairwise different at every moment. *)
Theorem ids_unique_while_streaming (pg : Live.Page) (acts : list Live.Action) :
  Live.suspended pg = None ->
  Page.messages (App.home (Live.app pg)) = [] ->
  clock_spaced 0 (Live.user_actions acts) ->
  NoDup (List.map id (Page.messages (App.home (Live.app (Live.run pg acts))))).
Proof.
  intros Hs Hm Hclock.
  assert (Hinv : Live.ids_below 0 pg).
  { exists []. unfold Live.ids_below. rewrite Hs, Hm. repeat split; constructor. }
  destruct (ids_below_run acts 0 pg Hinv Hclock) as [used [ns [Hnd [_ Hshape]]]].
  assert (Hinj : Inj eq eq toString) by (intros x y; apply toString_inj).
  assert (Hnd' : NoDup (List.map toString ns)) by by apply (NoDup_fmap_2 toString).
  destruct (Live.suspended (Live.run pg acts)) as [s |].
  - destruct Hshape as [_ [[-> | ->] Hids]]; [constructor |].
    rewrite <- Hids in Hnd'. by apply NoDup_app in Hnd' as [Hfront _].
  - by rewrite Hshape.
Qed.

End StreamingIds.

(** ** What a submit sends, and with which key *)

Section Outgoing.
Context `{JSON Api.Completion, JSON ModelProvider, JSON jsstring, JSON (list Message)}.
Import Api.

(** The generator of a submit, by what it asks of the remote end. *)
Lemma streamGenerator_asks (p : ChatInterface.Props) (env : ChatInterface.Env)
    (st : ChatInterface.State) :
  let turns :=
    List.map (fun msg => mkTurn (role msg) (content msg)) (ChatInterface.messages p)
    ++ [mkTurn user (trim (ChatInterface.input st))] in
  ChatInterface.streamGenerator p env
    (ChatInterface.messages p ++ [ChatInterface.userMessage env st])
  = match ChatInterface.modelProvider p with
    | openai =>
        callOpenAIStream
          (fun _ =>
             ChatInterface.fetch env
               {| url := lit "https://api.openai.com/v1/chat/completions";
                  method := lit "POST";
                  headers := [ (lit "Content-Type", lit "application/json");
                               (lit "Authorization",
                                lit "Bearer " ++ ChatInterface.apiKey p) ];
                  body := {| body_model := lit "gpt-4o-mini";
                             body_messages := turns;
                             body_temperature := (7 # 10)%Q;
                             body_max_tokens := 10000;
                             body_stream := true |} |})
          (mkOpenAIRequest (lit "gpt-4o-mini") turns) (ChatInterface.apiKey p)
    | gemini =>
        callGeminiStream
          (fun _ =>
             ChatInterface.sendMessageStream env
               {| call_apiKey := ChatInterface.apiKey p;
                  call_model := lit "gemini-1.5-flash-latest";
                  call_temperature := (7 # 10)%Q;
                  call_maxOutputTokens := 10000;
                  history :=
                    List.map (fun msg =>
                                {| content_role := match role msg with
                                                   | user => role_user
                                                   | assistant => role_model
                                                   end;
                                   parts := [content msg] |})
                      (ChatInterface.messages p);
                  latest := trim (ChatInterface.input st) |})
          turns (ChatInterface.apiKey p)
    end.
Proof.
  intros turns. unfold ChatInterface.streamGenerator.
  rewrite to_turns_snoc. fold turns.
  destruct (ChatInterface.modelProvider p); [reflexivity |].
  unfold callGeminiStream. subst turns.
  change [mkTurn (role (ChatInterface.userMessage env st))
            (content (ChatInterface.userMessage env st))]
    with [mkTurn user (trim (ChatInterface.input st))].
  rewrite gemini_call_snoc, map_map. reflexivity.
Qed.

(** The same on the page: the key is the one held for the selected
    provider. *)
Lemma streamGenerator_page (h : Page.Home) (env : ChatInterface.Env)
    (st : ChatInterface.State) :
  let turns :=
    List.map (fun msg => mkTurn (role msg) (content msg)) (Page.messages h)
    ++ [mkTurn user (trim (ChatInterface.input st))] in
  ChatInterface.streamGenerator (App.chat_props h) env
    (Page.messages h ++ [ChatInterface.userMessage env st])
  = match Page.modelProvider h with
    | openai =>
        callOpenAIStream
          (fun _ =>
             ChatInterface.fetch env
               {| url := lit "https://api.openai.com/v1/chat/completions";
                  method := lit "POST";
                  headers := [ (lit "Content-Type", lit "application/json");
                               (lit "Authorization",
                                lit "Bearer " ++ Page.openaiApiKey h) ];
                  body := {| body_model := lit "gpt-4o-mini";
                             body_messages := turns;
                             body_temperature := (7 # 10)%Q;
                             body_max_tokens := 10000;
                             body_stream := true |} |})
          (mkOpenAIRequest (lit "gpt-4o-mini") turns) (Page.openaiApiKey h)
    | gemini =>
        callGeminiStream
          (fun _ =>
             ChatInterface.sendMessageStream env
               {| call_apiKey := Page.geminiApiKey h;
                  call_model := lit "gemini-1.5-flash-latest";
                  call_temperature := (7 # 10)%Q;
                  call_maxOutputTokens := 10000;
                  history :=
                    List.map (fun msg =>
                                {| content_role := match role msg with
                                                   | user => role_user
                                                   | assistant => role_model
                                                   end;
                                   parts := [content msg] |})
                      (Page.messages h);
                  latest := trim (ChatInterface.input st) |})
          turns (Page.geminiApiKey h)
    end.
Proof.
  intros turns.
  change (Page.messages h ++ [ChatInterface.userMessage env st])
    with (ChatInterface.messages (App.chat_props h)
          ++ [ChatInterface.userMessage env st]).
  rewrite streamGenerator_asks.
  unfold App.chat_props, Page.currentApiKey.
  cbn [ChatInterface.modelProvider ChatInterface.apiKey ChatInterface.messages].
  fold turns. by destruct (Page.modelProvider h).
Qed.

(** Two submits that read the same clock and get the same generator
    leave the same page. *)
Lemma submit_by_generator (pg : Live.Page)
    (now_user date_user now_assistant date_assistant now_error date_error : N)
    (fetch fetch' : HttpRequest -> FetchOutcome)
    (sdk sdk' : GeminiCall -> SdkOutcome) :
  let a := Live.app pg in
  let p := App.chat_props (App.home a) in
  let env := ChatInterface.mkEnv now_user date_user now_assistant date_assistant
               now_error date_error fetch sdk in
  let env' := ChatInterface.mkEnv now_user date_user now_assistant date_assistant
                now_error date_error fetch' sdk' in
  ChatInterface.canSendMessage p (App.chat a) = true ->
  ChatInterface.streamGenerator p env
    (ChatInterface.messages p ++ [ChatInterface.userMessage env (App.chat a)])
  = ChatInterface.streamGenerator p env'
      (ChatInterface.messages p ++ [ChatInterface.userMessage env' (App.chat a)]) ->
  Live.step pg (Live.Do (App.Submit env)) = Live.step pg (Live.Do (App.Submit env')).
Proof.
  intros a p env env' Hc Hg.
  rewrite !submit_accepted by done. fold a. fold p.
  change (Page.messages (App.home a)) with (ChatInterface.messages p).
  by rewrite Hg.
Qed.

Lemma exchanges_alternate (ms : list Message) :
  exchanges ms = true ->
  alternates role_user
    (List.map (fun msg =>
                 {| content_role := match role msg with
                                    | user => role_user
                                    | assistant => role_model
                                    end;
                    parts := [content msg] |}) ms) = true.
Proof.
  induction ms as [ms IH] using (induction_ltof1 _ (@length Message)).
  destruct ms as [|u [|r ms]]; [done | done |].
  simpl. intros Hms. apply andb_true_iff in Hms as [Hroles Hms].
  apply andb_true_iff in Hroles as [Hu Hr].
  apply bool_decide_eq_true in Hu, Hr. rewrite Hu, Hr. simpl.
  apply IH; [unfold ltof; simpl; lia | done].
Qed.

(** X15. With OpenAI selected, a submit makes one request: a POST to
    the chat completions endpoint of api.openai.com, bearing the
    OpenAI key the page holds, with the conversation and then the
    trimmed input as the messages.  The reply streamed depends on the
    answer to that request only; when the request is rejected the
    stream fails with that error at once. *)
Theorem openai_submit_sends_key_and_conversation (pg : Live.Page)
    (now_user date_user now_assistant date_assistant now_error date_error : N)
    (fetch fetch' : HttpRequest -> FetchOutcome)
    (sdk sdk' : GeminiCall -> SdkOutcome) :
  let a := Live.app pg in
  let h := App.home a in
  let env := ChatInterface.mkEnv now_user date_user now_assistant date_assistant
               now_error date_error fetch sdk in
  let env' := ChatInterface.mkEnv now_user date_user now_assistant date_assistant
                now_error date_error fetch' sdk' in
  let request :=
    {| url := lit "https://api.openai.com/v1/chat/completions";
       method := lit "POST";
       headers := [ (lit "Content-Type", lit "application/json");
                    (lit "Authorization", lit "Bearer " ++ Page.openaiApiKey h) ];
       body := {| body_model := lit "gpt-4o-mini";
                  body_messages :=
                    List.map (fun msg => mkTurn (role msg) (content msg))
                      (Page.messages h)
                    ++ [mkTurn user (trim (ChatInterface.input (App.chat a)))];
                  body_temperature := (7 # 10)%Q;
                  body_max_tokens := 10000;
                  body_stream := true |} |} in
  Page.modelProvider h = openai ->
  ChatInterface.canSendMessage (App.chat_props h) (App.chat a) = true ->
  (fetch request = fetch' request ->
   Live.step pg (Live.Do (App.Submit env)) = Live.step pg (Live.Do (App.Submit env')))
  /\ (forall e, fetch request = FetchRejects e ->
        exists s, Live.suspended (Live.step pg (Live.Do (App.Submit env))) = Some s
                  /\ Live.coming s = [] /\ Live.coming_end s = Some e).
Proof.
  intros a h env env' request Hp Hc.
  split.
  - intros Hsame. apply submit_by_generator; [done |].
    fold a. fold h.
    change (ChatInterface.messages (App.chat_props h)) with (Page.messages h).
    rewrite !streamGenerator_page, Hp.
    unfold env, env'. cbn [ChatInterface.fetch]. fold request. by rewrite Hsame.
  - intros e He. rewrite submit_accepted by done. fold a. fold h.
    rewrite streamGenerator_page, Hp.
    unfold env. cbn [ChatInterface.fetch]. fold request. rewrite He.
    eexists. split; [reflexivity |]. by split.
Qed.

(** X16. With Gemini selected, a submit makes one call of the SDK:
    with the Gemini key the page holds, the conversation as history
    and the trimmed input as the message sent.  The reply streamed
    depends on the answer to that call only; when the call is rejected
    the stream fails with that error at once. *)
Theorem gemini_submit_sends_key_and_conversation (pg : Live.Page)
    (now_user date_user now_assistant date_assistant now_error date_error : N)
    (fetch fetch' : HttpRequest -> FetchOutcome)
    (sdk sdk' : GeminiCall -> SdkOutcome) :
  let a := Live.app pg in
  let h := App.home a in
  let env := ChatInterface.mkEnv now_user date_user now_assistant date_assistant
               now_error date_error fetch sdk in
  let env' := ChatInterface.mkEnv now_user date_user now_assistant date_assistant
                now_error date_error fetch' sdk' in
  let call :=
    {| call_apiKey := Page.geminiApiKey h;
       call_model := lit "gemini-1.5-flash-latest";
       call_temperature := (7 # 10)%Q;
       call_maxOutputTokens := 10000;
       history :=
         List.map (fun msg =>
                     {| content_role := match role msg with
                                        | user => role_user
                                        | assistant => role_model
                                        end;
                        parts := [content msg] |})
           (Page.messages h);
       latest := trim (ChatInterface.input (App.chat a)) |} in
  Page.modelProvider h = gemini ->
  ChatInterface.canSendMessage (App.chat_props h) (App.chat a) = true ->
  (sdk call = sdk' call ->
   Live.step pg (Live.Do (App.Submit env)) = Live.step pg (Live.Do (App.Submit env')))
  /\ (forall e, sdk call = SendRejects e ->
        exists s, Live.suspended (Live.step pg (Live.Do (App.Submit env))) = Some s
                  /\ Live.coming s = [] /\ Live.coming_end s = Some e).
Proof.
  intros a h env env' call Hp Hc.
  split.
  - intros Hsame. apply submit_by_generator; [done |].
    fold a. fold h.
    change (ChatInterface.messages (App.chat_props h)) with (Page.messages h).
    rewrite !streamGenerator_page, Hp.
    unfold env, env'. cbn [ChatInterface.sendMessageStream]. fold call.
    by rewrite Hsame.
  - intros e He. rewrite submit_accepted by done. fold a. fold h.
    rewrite streamGenerator_page, Hp.
    unfold env. cbn [ChatInterface.sendMessageStream]. fold call.
    unfold callGeminiStream. rewrite gemini_call_snoc, He.
    eexists. split; [reflexivity |]. by split.
Qed.

(** X22. When the conversation is made of exchanges, the history a
    Gemini submit hands to the SDK alternates between [user] and
    [model], beginning with [user], has one entry for each message,
    and the message sent is the trimmed input: an SDK that answers
    such calls in the same way gives the same page. *)
Theorem gemini_history_alternates_from_user (pg : Live.Page)
    (now_user date_user now_assistant date_assistant now_error date_error : N)
    (fetch fetch' : HttpRequest -> FetchOutcome)
    (sdk sdk' : GeminiCall -> SdkOutcome) :
  let a := Live.app pg in
  let h := App.home a in
  let env := ChatInterface.mkEnv now_user date_user now_assistant date_assistant
               now_error date_error fetch sdk in
  let env' := ChatInterface.mkEnv now_user date_user now_assistant date_assistant
                now_error date_error fetch' sdk' in
  Page.modelProvider h = gemini ->
  ChatInterface.canSendMessage (App.chat_props h) (App.chat a) = true ->
  exchanges (Page.messages h) = true ->
  (forall call,
     alternates role_user (history call) = true ->
     length (history call) = length (Page.messages h) ->
     latest call = trim (ChatInterface.input (App.chat a)) ->
     sdk call = sdk' call) ->
  Live.step pg (Live.Do (App.Submit env)) = Live.step pg (Live.Do (App.Submit env')).
Proof.
  intros a h env env' Hp Hc Hex Hsame.
  apply submit_by_generator; [done |].
  fold a. fold h.
  change (ChatInterface.messages (App.chat_props h)) with (Page.messages h).
  rewrite !streamGenerator_page, Hp.
  unfold env, env'. cbn [ChatInterface.sendMessageStream].
  rewrite Hsame; [done | | |]; cbn [history latest].
  - by apply exchanges_alternate.
  - by rewrite length_map.
  - done.
Qed.

End Outgoing.

(** ** The further properties on sample runs *)

Module MoreRuns.
Import Sample ChatInterface.

#[local] Existing Instance completions.
#[local] Existing Instance providers.
#[local] Existing Instance keys.
#[local] Existing Instance conversations.

Definition request0 : Api.OpenAIRequest := Api.mkOpenAIRequest (lit "gpt-4o-mini") [].

Lemma openai_stream_ignores_read_boundaries_witness :
  Api.callOpenAIStream (fun _ => Api.ResponseBody hi_there_reads None)
    request0 (lit "sk-test")
  = Api.callOpenAIStream (fun _ => Api.ResponseBody [concat hi_there_reads] None)
      request0 (lit "sk-test").
Proof. apply openai_stream_ignores_read_boundaries. reflexivity. Defined.

Lemma done_line_ends_the_stream_witness :
  Api.callOpenAIStream
    (fun _ => Api.ResponseBody
                [ event (delta_text "Hi") ++ lit "data: [DONE]" ++ [10]
                  ++ event (delta_text "!") ] (Some offline))
    request0 (lit "sk-test")
  = Api.callOpenAIStream (fun _ => Api.ResponseBody [event (delta_text "Hi")] None)
      request0 (lit "sk-test").
Proof.
  apply done_line_ends_the_stream with (tail := event (delta_text "!")).
  - right. exists (lit "data: " ++ delta_text "Hi" ++ [10]). reflexivity.
  - reflexivity.
Defined.

Lemma unterminated_line_is_dropped_witness :
  Api.callOpenAIStream
    (fun _ => Api.ResponseBody
                [ event (delta_text "Hi") ++ lit "data: " ++ delta_text "!" ] None)
    request0 (lit "sk-test")
  = Api.callOpenAIStream (fun _ => Api.ResponseBody [event (delta_text "Hi")] None)
      request0 (lit "sk-test").
Proof.
  apply unterminated_line_is_dropped with (partial := lit "data: " ++ delta_text "!").
  - right. exists (lit "data: " ++ delta_text "Hi" ++ [10]). reflexivity.
  - apply (bool_decide_unpack (10 ∉ lit "data: " ++ delta_text "!")). vm_compute. exact I.
  - reflexivity.
Defined.

Lemma other_lines_are_ignored_witness :
  Api.callOpenAIStream
    (fun _ => Api.ResponseBody
                [ event (delta_text "Hi") ++ lit ": keep-alive" ++ [10]
                  ++ event (delta_text "!") ] None)
    request0 (lit "sk-test")
  = Api.callOpenAIStream
      (fun _ => Api.ResponseBody [ event (delta_text "Hi") ++ event (delta_text "!") ] None)
      request0 (lit "sk-test").
Proof.
  apply other_lines_are_ignored with
    (head := event (delta_text "Hi")) (tail := event (delta_text "!"))
    (line := lit ": keep-alive").
  - right. exists (lit "data: " ++ delta_text "Hi" ++ [10]). reflexivity.
  - apply (bool_decide_unpack (10 ∉ lit ": keep-alive")). vm_compute. exact I.
  - reflexivity.
  - reflexivity.
  - reflexivity.
Defined.

Lemma events_yield_their_contents_witness :
  Api.callOpenAIStream
    (fun _ => Api.ResponseBody
                [ event (delta_text "Hi") ++ event (delta_text "")
                  ++ event (delta_text "!") ] None)
    request0 (lit "sk-test")
  = mkGenerated [lit "Hi"; lit "!"] None.
Proof.
  apply (events_yield_their_contents request0 (lit "sk-test") _ None
           [ (delta_text "Hi", lit "Hi"); (delta_text "", []); (delta_text "!", lit "!") ]).
  - repeat constructor;
      try (apply (bool_decide_unpack _); vm_compute; exact I);
      try discriminate;
      (eexists; split; reflexivity).
  - reflexivity.
Defined.

Lemma gemini_stream_yields_nonempty_texts_witness :
  Api.callGeminiStream
    (fun _ => Api.SdkStream (List.map Api.ChunkText [lit "Hi"; []; lit "!"]) None)
    [Api.mkTurn user (lit "hello")] (lit "AIzaSy-sample-key")
  = mkGenerated [lit "Hi"; lit "!"] None.
Proof.
  apply (gemini_stream_yields_nonempty_texts [Api.mkTurn user (lit "hello")]
           (lit "AIzaSy-sample-key") [lit "Hi"; []; lit "!"] None offline []).
  discriminate.
Defined.


Lemma write_then_reload_witness :
  let w := (UseLocalStorage.setValue Page.key_openai (inl (lit "sk-test")) [] (Some ∅)).2 in
  UseLocalStorage.initial w Page.key_openai [] = lit "sk-test"
  /\ UseLocalStorage.initial w Page.key_messages [greeting] = [greeting].
Proof.
  intros w.
  destruct (write_then_reload (T := jsstring) (U := list Message) ∅
              Page.key_openai Page.key_messages
              (inl (lit "sk-test")) [] (quoted "sk-test") [] [greeting])
    as [_ [Hsame Hother]]; [reflexivity | discriminate | reflexivity | discriminate |].
  split; [exact Hsame | exact Hother].
Defined.

Lemma no_key_no_send_witness :
  App.step fresh (App.Submit hi_there) = fresh.
Proof. apply (proj1 (no_key_no_send fresh) eq_refl hi_there []). Defined.

Lemma key_actions_touch_only_the_selected_provider_witness :
  Page.messages (App.home (App.step ready_openai App.ClearKey)) = []
  /\ Page.geminiApiKey (App.home (App.step ready_openai App.ClearKey)) = [].
Proof.
  destruct (key_actions_touch_only_the_selected_provider ready_openai App.ClearKey)
    as [Hm [_ Hother]]; [by right; right |].
  split; [exact Hm | exact Hother].
Defined.

Lemma provider_switch_keeps_keys_and_typed_text_witness :
  let a := App.step fresh (App.TypeKey (lit "AIzaSy-sample-key")) in
  Page.currentApiKey
    (App.home (App.step (App.step a (App.SelectModel gemini)) App.SaveKey))
  = lit "AIzaSy-sample-key".
Proof.
  intros a.
  destruct (provider_switch_keeps_keys_and_typed_text a gemini)
    as [_ [_ [_ [_ [_ [_ Hsave]]]]]].
  exact (Hsave eq_refl).
Defined.

Lemma ids_unique_under_spaced_clock_witness :
  NoDup (List.map id (Page.messages (App.home (App.run fresh resubmit_next_second)))).
Proof.
  apply ids_unique_under_spaced_clock; [reflexivity |].
  simpl. repeat split; lia.
Defined.



Lemma adapters_send_flat_list_or_history_and_latest_witness :
  Api.callOpenAIStream (ChatInterface.fetch (picky_at 2000))
    (Api.mkOpenAIRequest (lit "gpt-4o-mini") (earlier_turns ++ [again_turn]))
    (lit "sk-test")
  = Api.callOpenAIStream (fun _ => Api.ResponseBody hi_there_reads None)
      (Api.mkOpenAIRequest (lit "gpt-4o-mini") (earlier_turns ++ [again_turn]))
      (lit "sk-test")
  /\ Api.callGeminiStream (ChatInterface.sendMessageStream (picky_at 2000))
       (earlier_turns ++ [again_turn]) (lit "AIzaSy-sample-key")
     = Api.callGeminiStream (fun _ => Api.SdkStream hi_there_chunks None)
         (earlier_turns ++ [again_turn]) (lit "AIzaSy-sample-key")
  /\ handleSubmit (App.chat_props (App.home talked_openai)) (picky_at 2000)
       (App.chat talked_openai)
     = handleSubmit (App.chat_props (App.home talked_openai)) hi_there_again
         (App.chat talked_openai)
  /\ handleSubmit (App.chat_props (App.home talked_gemini)) (picky_at 2000)
       (App.chat talked_gemini)
     = handleSubmit (App.chat_props (App.home talked_gemini)) hi_there_again
         (App.chat talked_gemini).
Proof.
  destruct (adapters_send_flat_list_or_history_and_latest
              (Api.mkOpenAIRequest (lit "gpt-4o-mini") (earlier_turns ++ [again_turn]))
              earlier_turns again_turn (lit "sk-test"))
    as [Hflat [_ [_ [_ Hloop]]]].
  destruct (adapters_send_flat_list_or_history_and_latest
              (Api.mkOpenAIRequest (lit "gpt-4o-mini") (earlier_turns ++ [again_turn]))
              earlier_turns again_turn (lit "AIzaSy-sample-key"))
    as [_ [_ [Hsplit _]]].
  split; [| split; [| split]].
  - apply Hflat. vm_compute. reflexivity.
  - apply Hsplit. vm_compute. reflexivity.
  - apply (Hloop (App.chat_props (App.home talked_openai)) (App.chat talked_openai)
             2000 2000 2000 2000 2000 2000); vm_compute; reflexivity.
  - apply (Hloop (App.chat_props (App.home talked_gemini)) (App.chat talked_gemini)
             2000 2000 2000 2000 2000 2000); vm_compute; reflexivity.
Defined.

Lemma streaming_message_is_the_text_so_far_witness :
  App.chat
    (Live.app
       (Live.run (Live.mkPage ready_openai None)
          [ Live.Do (App.Submit hi_there); Live.Resume;
            Live.Do App.ClearChat; Live.Resume ]))
  = ChatInterface.mkState [] true true (lit "Hi there").
Proof.
  assert (Hshown := proj1 (streaming_message_is_the_text_so_far
                             (Live.mkPage ready_openai None) hi_there
                             [[]; [App.ClearChat]] eq_refl)).
  assert (Hlen : (2 <= 3)%nat) by lia.
  apply Hshown in Hlen. vm_compute in Hlen. vm_compute. exact Hlen.
Defined.

Lemma stream_end_writes_the_conversation_of_the_submit_witness :
  Page.messages
    (App.home
       (Live.app
          (Live.run (Live.mkPage ready_openai None)
             [ Live.Do (App.Submit hi_there); Live.Resume;
               Live.Do App.ClearChat; Live.Resume; Live.Resume; Live.Resume ])))
  = [ {| id := lit "1000"; role := user; content := lit "hello"; timestamp := 1000 |};
      {| id := lit "1001"; role := assistant; content := lit "Hi there!";
         timestamp := 1000 |} ].
Proof.
  assert (Hend := proj2 (stream_end_writes_the_conversation_of_the_submit
                           (Live.mkPage ready_openai None) hi_there
                           [[]; [App.ClearChat]; []; []] eq_refl eq_refl)).
  vm_compute in Hend. vm_compute. exact Hend.
Defined.


Lemma uninterrupted_submit_is_one_step_witness :
  Live.run (Live.mkPage ready_openai None)
    [ Live.Do (App.Submit hi_there); Live.Resume; Live.Resume; Live.Resume;
      Live.Resume ]
  = Live.mkPage (App.step ready_openai (App.Submit hi_there)) None.
Proof.
  assert (Hone := uninterrupted_submit_is_one_step (Live.mkPage ready_openai None)
                    hi_there eq_refl).
  vm_compute in Hone. vm_compute. exact Hone.
Defined.

Lemma openai_submit_sends_key_and_conversation_witness :
  Live.step (Live.mkPage talked_openai None) (Live.Do (App.Submit (picky_at 2000)))
  = Live.step (Live.mkPage talked_openai None) (Live.Do (App.Submit hi_there_again)).
Proof.
  apply (proj1 (openai_submit_sends_key_and_conversation
                  (Live.mkPage talked_openai None) 2000 2000 2000 2000 2000 2000
                  _ _ _ _ eq_refl eq_refl)).
  vm_compute. reflexivity.
Defined.

Lemma gemini_submit_sends_key_and_conversation_witness :
  Live.step (Live.mkPage talked_gemini None) (Live.Do (App.Submit (picky_at 2000)))
  = Live.step (Live.mkPage talked_gemini None) (Live.Do (App.Submit hi_there_again)).
Proof.
  apply (proj1 (gemini_submit_sends_key_and_conversation
                  (Live.mkPage talked_gemini None) 2000 2000 2000 2000 2000 2000
                  _ _ _ _ eq_refl eq_refl)).
  vm_compute. reflexivity.
Defined.

Lemma gemini_history_alternates_from_user_witness :
  Live.step (Live.mkPage talked_gemini None) (Live.Do (App.Submit after_turns_at_2000))
  = Live.step (Live.mkPage talked_gemini None) (Live.Do (App.Submit hi_there_again)).
Proof.
  apply (gemini_history_alternates_from_user
           (Live.mkPage talked_gemini None) 2000 2000 2000 2000 2000 2000
           _ _ _ _ eq_refl eq_refl eq_refl).
  intros call Halt Hlen _. simpl. by rewrite Halt, Hlen.
Defined.

Lemma ids_unique_while_streaming_witness :
  NoDup
    (List.map id
       (Page.messages
          (App.home (Live.app (Live.run (Live.mkPage fresh None) interleaved_resubmit))))).
Proof.
  apply ids_unique_while_streaming; [reflexivity | reflexivity |].
  simpl. repeat split; lia.
Defined.

End MoreRuns.
